(** * Dominant-colour extraction: a shallow embedding of [app.py]

    The four functions of the colour pipeline are embedded here:
    [get_dominant_colors], [rgb_to_hex], [calculate_wcss] and
    [find_optimal_k_elbow].  Python integers are [Z], finite floating-point
    values are the rationals they denote, exceptions are values of [exn],
    and the two pieces of ambient state the functions touch (numpy's global
    random generator and the Streamlit message area) are threaded
    explicitly.  The numeric libraries the functions call ([KMeans],
    [KneeLocator], [np.random.choice], [Image.convert]) are not part of the
    application; each is an interface (a type class) that the functions are
    parameterised by, with the properties the application relies on stated
    as laws. *)

From Stdlib Require Import ZArith QArith Qabs List String Ascii Bool Lia Arith.
From Stdlib Require Import Permutation Sorted Lqa.
Import ListNotations.

Local Open Scope Z_scope.

(** ** Exceptions and outcomes *)

Record exn : Type := mk_exn { exn_type : string; exn_msg : string }.

Definition ValueError (msg : string) : exn := mk_exn "ValueError" msg.
Definition IndexError (msg : string) : exn := mk_exn "IndexError" msg.
Definition OverflowError (msg : string) : exn := mk_exn "OverflowError" msg.
(** scikit-learn's exception for a constructor argument out of its range. *)
Definition InvalidParameterError (msg : string) : exn :=
  mk_exn "InvalidParameterError" msg.

Inductive outcome (A : Type) : Type :=
| Return (a : A)
| Raise (e : exn).
Arguments Return {A} a.
Arguments Raise {A} e.

(** A computation over an ambient state [W].  A raised exception keeps the
    state changes made before it, as in Python. *)
Definition io (W A : Type) : Type := W -> outcome A * W.

Class Monad (M : Type -> Type) : Type :=
  { ret : forall {A}, A -> M A;
    bind : forall {A B}, M A -> (A -> M B) -> M B }.

#[export] Instance Monad_outcome : Monad outcome :=
  {| ret := fun A a => Return a;
     bind := fun A B c k =>
       match c with
       | Return a => k a
       | Raise e => Raise e
       end |}.

#[export] Instance Monad_io (W : Type) : Monad (io W) :=
  {| ret := fun A a w => (Return a, w);
     bind := fun A B c k w =>
       match c w with
       | (Return a, w') => k a w'
       | (Raise e, w') => (Raise e, w')
       end |}.

Declare Scope py_scope.
Delimit Scope py_scope with py.
Notation "x <- c ;; k" := (bind c (fun x => k))
  (at level 100, c at next level, right associativity) : py_scope.
Notation "c ;;; k" := (bind c (fun _ => k))
  (at level 100, right associativity) : py_scope.
Local Open Scope py_scope.

(** [try: body except Exception as e: handler e]. *)
Definition try_except {W A : Type} (body : io W A) (handler : exn -> io W A) : io W A :=
  fun w =>
    match body w with
    | (Return a, w') => (Return a, w')
    | (Raise e, w') => handler e w'
    end.

(** A call that cannot touch the ambient state. *)
Definition lift {W A : Type} (c : outcome A) : io W A := fun w => (c, w).

(** ** Python numbers *)

(** A float is a finite value, an infinity or a NaN.  A finite float is
    represented by the rational number it denotes exactly. *)
Inductive pyfloat : Type :=
| Finite (q : Q)
| Inf (negative : bool)
| NaN.

Inductive number : Type :=
| PyInt (z : Z)
| PyFloat (f : pyfloat).

(** Truncation toward zero of a rational: C's float-to-integer conversion. *)
Definition trunc (q : Q) : Z := Z.quot (Qnum q) (Zpos (Qden q)).

(** [int(x)]: the identity on integers, truncation toward zero on finite
    floats, an error on the others. *)
Definition int (x : number) : outcome Z :=
  match x with
  | PyInt z => Return z
  | PyFloat (Finite q) => Return (trunc q)
  | PyFloat (Inf _) => Raise (OverflowError "cannot convert float infinity to integer")
  | PyFloat NaN => Raise (ValueError "cannot convert float NaN to integer")
  end.

(** [seq[i]] for a non-negative index. *)
Definition getitem {A : Type} (l : list A) (i : nat) : outcome A :=
  match nth_error l i with
  | Some a => Return a
  | None => Raise (IndexError "index out of range")
  end.

(** ** Formatting with [:02x] *)

Definition hex_digit (d : Z) : ascii :=
  match d with
  | 0 => "0" | 1 => "1" | 2 => "2" | 3 => "3" | 4 => "4" | 5 => "5"
  | 6 => "6" | 7 => "7" | 8 => "8" | 9 => "9" | 10 => "a" | 11 => "b"
  | 12 => "c" | 13 => "d" | 14 => "e" | _ => "f"
  end%char.

Fixpoint to_hex_aux (fuel : nat) (n : Z) (acc : string) : string :=
  match fuel with
  | O => acc
  | S fuel' =>
      let acc' := String (hex_digit (n mod 16)) acc in
      if n / 16 =? 0 then acc' else to_hex_aux fuel' (n / 16) acc'
  end.

(** Lowercase hexadecimal digits of a non-negative integer, most significant
    first; ["0"] for zero. *)
Definition to_hex (n : Z) : string :=
  to_hex_aux (S (Z.to_nat (Z.log2 n))) n EmptyString.

Fixpoint zeros (n : nat) : string :=
  match n with
  | O => EmptyString
  | S n' => String "0" (zeros n')
  end.

(** [format(z, "0<width>x")]: sign, then zero fill up to [width], then the
    hexadecimal digits of the magnitude.  The width is a minimum. *)
Definition format_0x (width : nat) (z : Z) : string :=
  let sign := if z <? 0 then String "-" EmptyString else EmptyString in
  let digits := to_hex (Z.abs z) in
  (sign ++ zeros (width - String.length sign - String.length digits) ++ digits)%string.

(** ** [rgb_to_hex] (app.py, line 38) *)

Definition rgb_to_hex (rgb : list number) : outcome string :=
  c0 <- getitem rgb 0 ;; r <- int c0 ;;
  c1 <- getitem rgb 1 ;; g <- int c1 ;;
  c2 <- getitem rgb 2 ;; b <- int c2 ;;
  ret ("#" ++ format_0x 2 r ++ format_0x 2 g ++ format_0x 2 b)%string.

(** *** What a display code looks like *)

Definition is_hex_digit (c : ascii) : bool :=
  existsb (Ascii.eqb c) (list_ascii_of_string "0123456789abcdef").

(** ['#'] followed by exactly six lowercase hexadecimal digits. *)
Definition is_hex_color (s : string) : bool :=
  match s with
  | String "#" rest =>
      (String.length rest =? 6)%nat && forallb is_hex_digit (list_ascii_of_string rest)
  | _ => false
  end.

(** The two hexadecimal digits of a value in [0,255]. *)
Definition hex2 (z : Z) : string :=
  String (hex_digit (z / 16)) (String (hex_digit (z mod 16)) EmptyString).

Definition in_byte_range (z : Z) : bool := (0 <=? z) && (z <=? 255).

(** ** Containers the functions use *)

Definition len {A : Type} (l : list A) : Z := Z.of_nat (List.length l).

(** [range(lo, hi)]. *)
Definition range (lo hi : Z) : list Z :=
  map (fun i => lo + Z.of_nat i) (seq 0 (Z.to_nat (hi - lo))).

Fixpoint mapM {A B : Type} (f : A -> outcome B) (l : list A) : outcome (list B) :=
  match l with
  | [] => Return []
  | a :: rest => b <- f a ;; bs <- mapM f rest ;; ret (b :: bs)
  end.

(** A [for] loop that carries the variables it updates. *)
Fixpoint for_ {W A S : Type} (xs : list A) (body : S -> A -> io W S) (s : S) : io W S :=
  match xs with
  | [] => ret s
  | x :: rest => s' <- body s x ;; for_ rest body s'
  end.

(** [collections.Counter]: a dictionary from element to count, which keeps
    its keys in the order of their first insertion. *)
Fixpoint counter_incr (c : list (nat * Z)) (x : nat) : list (nat * Z) :=
  match c with
  | [] => [(x, 1)]
  | (y, n) :: rest =>
      if Nat.eqb x y then (y, n + 1) :: rest else (y, n) :: counter_incr rest x
  end.

Definition Counter (xs : list nat) : list (nat * Z) :=
  fold_left counter_incr xs [].

(** [Counter.most_common()] is [sorted(items, key=count, reverse=True)].
    Python's sort is stable, also under [reverse=True]: entries of equal
    count keep their relative order.  The stable sort is written as an
    insertion sort; an entry is placed in front of the first entry whose
    count is not larger than its own. *)
Fixpoint insert_by_count (e : nat * Z) (l : list (nat * Z)) : list (nat * Z) :=
  match l with
  | [] => [e]
  | h :: t => if snd e <? snd h then h :: insert_by_count e t else e :: h :: t
  end.

Definition most_common (c : list (nat * Z)) : list (nat * Z) :=
  fold_right insert_by_count [] c.

(** ** Arrays *)

(** A row of a float matrix: one colour, or one cluster centre. *)
Definition point : Type := list Q.

(** [a.reshape(-1, 3)] on the flat contents of an array. *)
Fixpoint reshape3 (flat : list Z) : outcome (list (list Z)) :=
  match flat with
  | [] => Return []
  | a :: b :: c :: rest => rows <- reshape3 rest ;; ret ([a; b; c] :: rows)
  | _ => Raise (ValueError "cannot reshape array into shape (3)")
  end.

(** [np.float32(a)] on an array of band values. *)
Definition float32 (a : list (list Z)) : list point := map (map inject_Z) a.

(** [np.array(rows, dtype=int)]: the float-to-integer cast truncates. *)
Definition astype_int (rows : list point) : list (list Z) := map (map trunc) rows.

(** [a[indices]] with an index array. *)
Definition fancy_index {A : Type} (a : list A) (indices : list nat) : outcome (list A) :=
  mapM (getitem a) indices.

(** ** The libraries *)

(** *** PIL *)

(** An image: its mode and its pixels in row-major order, each pixel being
    the list of its band values. *)
Record Image : Type := { mode : string; getdata : list (list Z) }.

(** Number of bands of a mode. *)
Definition bands (m : string) : nat :=
  let among := existsb (String.eqb m) in
  if among ["RGB"; "YCbCr"; "LAB"; "HSV"]%string then 3
  else if among ["RGBA"; "CMYK"; "RGBX"; "RGBa"]%string then 4
  else if among ["LA"; "PA"; "La"]%string then 2
  else 1.

(** Every pixel has the bands of the image's mode. *)
Definition wf_image (im : Image) : bool :=
  forallb (fun px => Nat.eqb (List.length px) (bands (mode im))) (getdata im).

Definition pixel_count (im : Image) : Z := len (getdata im).

(** [np.array(image)], as the flat contents of the array. *)
Definition np_array (im : Image) : list Z := List.concat (getdata im).

Class PIL : Type :=
  { convert : Image -> string -> Image }.

(** *** scikit-learn *)

(** The arguments of the [KMeans] constructor that the application sets. *)
Record KMeans : Type :=
  { n_clusters : Z; random_state : Z; n_init : Z }.

(** The attributes of a fitted estimator that the application reads. *)
Record FittedKMeans : Type :=
  { cluster_centers_ : list point; inertia_ : Q }.

Class Sklearn : Type :=
  { fit : KMeans -> list point -> outcome FittedKMeans;
    predict : FittedKMeans -> list point -> list nat }.

(** *** numpy's global random generator *)

Class Numpy : Type :=
  { generator : Type;
    (** [np.random.choice(a, size, replace=...)] *)
    random_choice : Z -> Z -> bool -> io generator (list nat) }.

(** *** kneed *)

Record Kneedle : Type := { elbow : option Z }.

Class Kneed : Type :=
  { KneeLocator :
      list Z -> list Q -> forall (S : Q) (curve direction interp_method : string),
      outcome Kneedle }.

(** *** Streamlit *)

(** The warnings shown so far, oldest first. *)
Definition streamlit : Type := list string.

Definition st_warning (msg : string) : io streamlit unit :=
  fun shown => (Return tt, shown ++ [msg]).

(** ** [get_dominant_colors] (app.py, line 10) *)

(** The local variables of the function once the labels are counted
    (lines 21 to 33). *)
Record locals : Type :=
  { pixels : list point;
    colors : list point;
    labels : list nat;
    label_counts : list (nat * Z) }.

(** Lines 21 and 22: the image in RGB. *)
Definition as_rgb `{PIL} (image : Image) : Image :=
  if negb (String.eqb (mode image) "RGB") then convert image "RGB" else image.

(** Lines 21 to 26: the image as a float matrix with one row per pixel. *)
Definition pixel_matrix `{PIL} (image : Image) : outcome (list point) :=
  let image := as_rgb image in
  let img_np := np_array image in
  pixels <- reshape3 img_np ;;
  ret (float32 pixels).

Definition cluster_pixels `{PIL} `{Sklearn} (image : Image) (num_colors : Z)
  : outcome locals :=
  pixels <- pixel_matrix image ;;
  let kmeans := {| n_clusters := num_colors; random_state := 42; n_init := 10 |} in
  fitted <- fit kmeans pixels ;;
  let colors := cluster_centers_ fitted in
  let labels := predict fitted pixels in
  let label_counts := Counter labels in
  ret {| pixels := pixels; colors := colors; labels := labels;
         label_counts := label_counts |}.

Definition get_dominant_colors `{PIL} `{Sklearn} (image : Image) (num_colors : Z)
  : outcome (list (list Z)) :=
  vars <- cluster_pixels image num_colors ;;
  sorted_colors <-
    mapM (fun '(i, _) => getitem (colors vars) i) (most_common (label_counts vars)) ;;
  ret (astype_int sorted_colors).

(** A row of the returned integer array, as [rgb_to_hex] receives it. *)
Definition int_row (row : list Z) : list number := map PyInt row.

(** ** [calculate_wcss] (app.py, line 50) *)

Definition calculate_wcss `{Numpy} `{Sklearn} (pixels : list point) (max_k : Z)
  : io generator (list Q) :=
  let wcss := [] in
  let num_samples := Z.min (len pixels) 100000 in
  sample_indices <- random_choice (len pixels) num_samples false ;;
  sampled_pixels <- lift (fancy_index pixels sample_indices) ;;
  for_ (range 1 (max_k + 1))
    (fun wcss i =>
       let kmeans := {| n_clusters := i; random_state := 42; n_init := 10 |} in
       fitted <- lift (fit kmeans sampled_pixels) ;;
       ret (wcss ++ [inertia_ fitted]))
    wcss.

(** ** [find_optimal_k_elbow] (app.py, line 72) *)

(** The f-string of line 88. *)
Definition elbow_warning (e : exn) : string :=
  ("Gagal mendeteksi titik elbow, menggunakan k=5 sebagai default. Error: "
     ++ exn_msg e)%string.

(** The call of line 84. *)
Definition locate_knee `{Kneed} (wcss_values : list Q) (k_range : list Z)
  : outcome Kneedle :=
  KneeLocator k_range wcss_values 1 "convex" "decreasing" "polynomial".

Definition find_optimal_k_elbow `{Kneed} (wcss_values : list Q) (k_range : list Z)
  : io streamlit Z :=
  try_except
    (kneedle <- lift (locate_knee wcss_values k_range) ;;
     ret (match elbow kneedle with
          | Some k => Z.max 2 k
          | None => 5
          end))
    (fun e => st_warning (elbow_warning e) ;;; ret 5).

(** ** Display codes and the rounding the specification describes *)

Definition hex_code (r g b : Z) : string :=
  ("#" ++ hex2 r ++ hex2 g ++ hex2 b)%string.

(** Does a call return a well-formed display code? *)
Definition returns_hex_color (o : outcome string) : bool :=
  match o with
  | Return s => is_hex_color s
  | Raise _ => false
  end.

(** The claim that channels are rounded to the nearest integer, in the
    words of the specification. *)
Definition nearest_integer (q : Q) (z : Z) : Prop :=
  forall z' : Z, (Qabs (q - inject_Z z) <= Qabs (q - inject_Z z'))%Q.

Definition rounds_to_nearest : Prop :=
  forall r g b : Q,
    (0 <= r <= 255)%Q -> (0 <= g <= 255)%Q -> (0 <= b <= 255)%Q ->
    exists zr zg zb : Z,
      nearest_integer r zr /\ nearest_integer g zg /\ nearest_integer b zb /\
      rgb_to_hex [PyFloat (Finite r); PyFloat (Finite g); PyFloat (Finite b)]
      = Return (hex_code zr zg zb).

(** ** Populations and rankings *)

(** The distinct elements of a list, in the order in which they first
    occur. *)
Definition seen_add (acc : list nat) (x : nat) : list nat :=
  if existsb (Nat.eqb x) acc then acc else acc ++ [x].

Definition first_seen (xs : list nat) : list nat := fold_left seen_add xs [].

(** Number of pixels assigned to cluster [l]. *)
Definition population (labels : list nat) (l : nat) : Z :=
  Z.of_nat (count_occ Nat.eq_dec labels l).


(** Counts do not increase along the list. *)
Definition by_count_desc (e1 e2 : nat * Z) : Prop := snd e2 <= snd e1.

(** The cluster indices in the order in which [get_dominant_colors] emits
    their centres. *)
Definition ranking (vars : locals) : list nat :=
  map fst (most_common (label_counts vars)).

(** Ties in the order of the library's centres, in the words of the
    specification: of two clusters with the same population, the one with
    the smaller centre index comes first. *)
Definition ties_keep_center_order (labels order : list nat) : Prop :=
  forall (p q i j : nat),
    (p < q)%nat -> nth_error order p = Some i -> nth_error order q = Some j ->
    population labels i = population labels j -> (i < j)%nat.

(** ** Failures, in the words of the specification *)

(** The call fails with an exception of the class [cls]. *)
Definition fails_with {A : Type} (o : outcome A) (cls : string) : Prop :=
  exists e, o = Raise e /\ exn_type e = cls.

(** ** The cost curve as a list of fits *)

(** The body of the loop of [calculate_wcss] for one [k]: the inertia of a
    fit with [k] clusters. *)
Definition inertia_of_fit `{Sklearn} (sample : list point) (k : Z) : outcome Q :=
  fitted <- fit {| n_clusters := k; random_state := 42; n_init := 10 |} sample ;;
  ret (inertia_ fitted).

(** ** What the application relies on in the libraries *)

(** Conversion to RGB keeps the pixels and gives each three bands. *)
Definition convert_law `{PIL} : Prop :=
  forall im : Image,
    wf_image im = true ->
    mode (convert im "RGB") = "RGB"%string
    /\ wf_image (convert im "RGB") = true
    /\ pixel_count (convert im "RGB") = pixel_count im.

(** A fitted estimator has [n_clusters] centres and labels every row with
    the index of one of them. *)
Definition predict_law `{Sklearn} : Prop :=
  forall (km : KMeans) (X : list point) (m : FittedKMeans),
    fit km X = Return m ->
    len (cluster_centers_ m) = n_clusters km
    /\ forall Y : list point,
        List.length (predict m Y) = List.length Y
        /\ Forall (fun l => (l < List.length (cluster_centers_ m))%nat) (predict m Y).

(** [fit] refuses fewer samples than clusters with a [ValueError], and
    succeeds when there are between 1 and [n_samples] clusters. *)
Definition fit_law `{Sklearn} : Prop :=
  forall (km : KMeans) (X : list point),
    (len X < n_clusters km ->
     exists e, fit km X = Raise e /\ exn_type e = "ValueError"%string)
    /\ (1 <= n_clusters km <= len X -> exists m, fit km X = Return m).

(** Sampling [size] indices out of [a] without replacement succeeds when
    [size <= a], and the indices are below [a]. *)
Definition choice_law `{Numpy} : Prop :=
  forall (a size : Z) (g : generator),
    0 <= size <= a ->
    exists (indices : list nat) (g' : generator),
      random_choice a size false g = (Return indices, g')
      /\ len indices = size
      /\ Forall (fun i => Z.of_nat i < a) indices.

(** ** The script: from the uploaded image to the palette
       (app.py, lines 341 to 390) *)

(** The ambient state of the script: numpy's generator and the page. *)
Record app_state (G : Type) : Type := { np_random : G; page : streamlit }.
Arguments np_random {G} _.
Arguments page {G} _.

(** A call that touches the generator only. *)
Definition on_generator {G A : Type} (c : io G A) : io (app_state G) A :=
  fun w =>
    let (r, g') := c (np_random w) in
    (r, {| np_random := g'; page := page w |}).

(** A call that touches the page only. *)
Definition on_page {G A : Type} (c : io streamlit A) : io (app_state G) A :=
  fun w =>
    let (r, shown') := c (page w) in
    (r, {| np_random := np_random w; page := shown' |}).

(** What the script shows for an image: the detected number of clusters,
    the cost curve of the plot and the codes of the palette. *)
Record shown_palette : Type :=
  { optimal_k : Z; wcss_values : list Q; hex_codes : list string }.

(** Lines 341 and 342: the pixel matrix the cost curve is computed on. *)
Definition pixels_for_processing `{PIL} (image : Image) : outcome (list point) :=
  let img_np_for_processing := np_array (convert image "RGB") in
  rows <- reshape3 img_np_for_processing ;;
  ret (float32 rows).

(** The body of [if uploaded_file is not None], from line 341 on.  The
    calls that only write text, the image or the plot to the page are left
    out; the warning of [find_optimal_k_elbow] is kept. *)
Definition process_image `{PIL} `{Numpy} `{Sklearn} `{Kneed} (image : Image)
  : io (app_state generator) shown_palette :=
  pixels <- lift (pixels_for_processing image) ;;
  let max_k_to_test := 10 in
  let k_range := range 1 (max_k_to_test + 1) in
  wcss_values <- on_generator (calculate_wcss pixels max_k_to_test) ;;
  optimal_k <- on_page (find_optimal_k_elbow wcss_values k_range) ;;
  dominant_colors <- lift (get_dominant_colors image optimal_k) ;;
  hex_codes <- lift (mapM (fun color_rgb => rgb_to_hex (int_row color_rgb)) dominant_colors) ;;
  ret {| optimal_k := optimal_k; wcss_values := wcss_values; hex_codes := hex_codes |}.

(** ** More of what a caller can observe *)

(** Can [int] convert the value? *)
Definition convertible (x : number) : bool :=
  match int x with
  | Return _ => true
  | Raise _ => false
  end.

(** The characters a formatted channel can contain. *)
Definition is_code_char (c : ascii) : bool :=
  is_hex_digit c || Ascii.eqb c "-".

(** Reading a display code back: the value of a digit, of two digits, of a
    code. *)
Definition hex_digit_value (c : ascii) : option Z :=
  match find (fun d => Ascii.eqb (hex_digit d) c) (range 0 16) with
  | Some d => Some d
  | None => None
  end.

Definition parse_hex_code (s : string) : option (Z * Z * Z) :=
  match s with
  | String "#" (String r1 (String r0 (String g1 (String g0 (String b1 (String b0 EmptyString)))))) =>
      match hex_digit_value r1, hex_digit_value r0, hex_digit_value g1,
            hex_digit_value g0, hex_digit_value b1, hex_digit_value b0 with
      | Some r1, Some r0, Some g1, Some g0, Some b1, Some b0 =>
          Some (16 * r1 + r0, 16 * g1 + g0, 16 * b1 + b0)
      | _, _, _, _, _, _ => None
      end
  | _ => None
  end.

(** A row of three channels between 0 and 255. *)
Definition color_row (p : point) : Prop :=
  List.length p = 3%nat /\ Forall (fun q => (0 <= q <= 255)%Q) p.

(** Every band value of the image is a byte. *)
Definition eight_bit (im : Image) : bool :=
  forallb (forallb in_byte_range) (getdata im).

(** A row of three sums of [count] channels each. *)
Definition sum_row (count : nat) (a : point) : Prop :=
  List.length a = 3%nat
  /\ Forall (fun q => (0 <= q <= 255 * inject_Z (Z.of_nat count))%Q) a.

(** The same colour in two rows. *)
Definition same_row (p q : point) : bool :=
  Nat.eqb (List.length p) (List.length q)
  && forallb (fun ab => Qeq_bool (fst ab) (snd ab)) (combine p q).

(** The rows of a matrix, each colour once. *)
Fixpoint unique_rows (X : list point) : list point :=
  match X with
  | [] => []
  | p :: rest =>
      if existsb (same_row p) rest then unique_rows rest else p :: unique_rows rest
  end.

(** *** Further properties of the libraries *)


(** [fit] validates [n_clusters] before it looks at the data. *)
Definition invalid_parameter_law `{Sklearn} : Prop :=
  forall (km : KMeans) (X : list point),
    n_clusters km < 1 ->
    exists e, fit km X = Raise e /\ exn_type e = "InvalidParameterError"%string.

(** Converting an image that is in RGB already gives the same pixels. *)
Definition convert_rgb_law `{PIL} : Prop :=
  forall im : Image,
    mode im = "RGB"%string -> wf_image im = true ->
    getdata (convert im "RGB") = getdata im.

(** The knee, when there is one, is one of the abscissas. *)
Definition knee_law `{Kneed} : Prop :=
  forall (x : list Z) (y : list Q) (S : Q) (curve direction interp_method : string)
         (kneedle : Kneedle) (k : Z),
    KneeLocator x y S curve direction interp_method = Return kneedle ->
    elbow kneedle = Some k -> In k x.

(** The centres of colour rows are colour rows. *)
Definition centers_law `{Sklearn} : Prop :=
  forall (km : KMeans) (X : list point) (m : FittedKMeans),
    fit km X = Return m -> Forall color_row X -> Forall color_row (cluster_centers_ m).

(** Without replacement, no index is drawn twice. *)
Definition choice_distinct_law `{Numpy} : Prop :=
  forall (a size : Z) (g g' : generator) (indices : list nat),
    random_choice a size false g = (Return indices, g') -> NoDup indices.

(** * Reference implementations of the libraries

    Small executable stand-ins for the libraries, used to run the functions
    on concrete inputs.  They follow the documented behaviour of the
    libraries where the application depends on it (argument checks, shapes
    of results) and are deliberately simple elsewhere. *)

Module Ref.

(** ** PIL: conversion to RGB *)

Definition to_rgb (px : list Z) : list Z :=
  match px with
  | [] => [0; 0; 0]
  | [l] => [l; l; l]
  | [l; _] => [l; l; l]
  | r :: g :: b :: _ => [r; g; b]
  end.

Definition convert (im : Image) (m : string) : Image :=
  if String.eqb m "RGB"
  then {| mode := "RGB"; getdata := map to_rgb (getdata im) |}
  else im.

#[export] Instance pil : PIL := Build_PIL convert.

(** ** numpy: a generator whose state is an integer

    [random_choice] answers with a window of consecutive indices that starts
    at the state (modulo the population) and wraps around; the state then
    advances by a linear congruential step. *)

Definition next (g : Z) : Z := (1103515245 * g + 12345) mod 2147483648.

Definition random_choice (a size : Z) (replace : bool) : io Z (list nat) :=
  fun g =>
    if size <? 0 then (Raise (ValueError "negative dimensions are not allowed"), g)
    else if (a <=? 0) && negb (size =? 0)
    then (Raise (ValueError "a must be greater than 0 unless no samples are taken"), g)
    else if negb replace && (a <? size)
    then (Raise (ValueError "Cannot take a larger sample than population when 'replace=False'"), g)
    else (Return (map (fun i => Z.to_nat ((g + Z.of_nat i) mod a)) (seq 0 (Z.to_nat size))),
          next g).

#[export] Instance numpy : Numpy := Build_Numpy Z random_choice.

(** ** scikit-learn: Lloyd's algorithm from a seeded start; when it ends with
       an empty cluster, the centres are taken among the rows, distinct
       colours first *)

Definition Qltb (a b : Q) : bool := negb (Qle_bool b a).

(** Rationals are kept in lowest terms; an integral value is left as it
    is. *)
Definition Qnorm (q : Q) : Q :=
  if Pos.eqb (Qden q) 1 then q else Qred q.

Definition sqdist (p c : point) : Q :=
  fold_left (fun acc d => Qnorm (acc + d)%Q)
    (map (fun ab => (fst ab - snd ab) * (fst ab - snd ab))%Q (combine p c)) 0%Q.

(** Index of the first smallest element. *)
Fixpoint argmin_from (best_i : nat) (best : Q) (i : nat) (ds : list Q) : nat :=
  match ds with
  | [] => best_i
  | d :: rest =>
      if Qltb d best then argmin_from i d (S i) rest
      else argmin_from best_i best (S i) rest
  end.

Definition nearest (centers : list point) (p : point) : nat :=
  match map (sqdist p) centers with
  | [] => O
  | d :: rest => argmin_from 0 d 1 rest
  end.

Definition vadd (a b : point) : point :=
  map (fun xy => Qnorm (fst xy + snd xy)%Q) (combine a b).

Definition mean (members : list point) (default : point) : point :=
  match members with
  | [] => default
  | p :: rest =>
      map (fun x => Qnorm (x / inject_Z (len members))%Q) (fold_left vadd rest p)
  end.

Definition members_of (labels : list nat) (X : list point) (j : nat) : list point :=
  map snd (filter (fun lx => Nat.eqb (fst lx) j) (combine labels X)).

Definition lloyd_step (X centers : list point) : list point :=
  let labels := map (nearest centers) X in
  map (fun jc => mean (members_of labels X (fst jc)) (snd jc))
      (combine (seq 0 (List.length centers)) centers).

Fixpoint lloyd (iterations : nat) (X centers : list point) : list point :=
  match iterations with
  | O => centers
  | S n => lloyd n X (lloyd_step X centers)
  end.

Definition inertia (X centers : list point) : Q :=
  fold_left (fun acc d => Qnorm (acc + d)%Q)
    (map (fun p => sqdist p (nth (nearest centers p) centers [])) X) 0%Q.

(** The initial centres: [k] consecutive rows, starting at the row the seed
    designates. *)
Definition init_centers (k : nat) (seed : Z) (X : list point) : list point :=
  let s := Z.to_nat (seed mod len X) in
  firstn k (skipn s X ++ firstn s X).

(** Is every centre the nearest one of some row? *)
Definition populated (centers X : list point) : bool :=
  forallb (fun j => existsb (Nat.eqb j) (map (nearest centers) X))
    (seq 0 (List.length centers)).

(** [k] rows, those of distinct colours first. *)
Definition distinct_start (k : nat) (X : list point) : list point :=
  firstn k (unique_rows X ++ X).

Definition fit (km : KMeans) (X : list point) : outcome FittedKMeans :=
  if n_clusters km <? 1
  then Raise (InvalidParameterError "The 'n_clusters' parameter of KMeans must be an int in the range [1, inf)")
  else if len X =? 0
  then Raise (ValueError "Found array with 0 sample(s) while a minimum of 1 is required by KMeans")
  else if len X <? n_clusters km
  then Raise (ValueError "n_samples should be >= n_clusters")
  else
    let k := Z.to_nat (n_clusters km) in
    let found := lloyd 4 X (init_centers k (random_state km) X) in
    let centers := if populated found X then found else distinct_start k X in
    Return {| cluster_centers_ := centers; inertia_ := inertia X centers |}.

Definition predict (m : FittedKMeans) (X : list point) : list nat :=
  map (nearest (cluster_centers_ m)) X.

#[export] Instance sklearn : Sklearn := Build_Sklearn fit predict.

(** ** kneed: the knee as the point farthest above the diagonal *)

Definition Qmin_list (l : list Q) (d : Q) : Q :=
  fold_left (fun m x => if Qltb x m then x else m) l d.
Definition Qmax_list (l : list Q) (d : Q) : Q :=
  fold_left (fun m x => if Qltb m x then x else m) l d.

Fixpoint argmax_from (best_i : nat) (best : Q) (i : nat) (ds : list Q) : nat :=
  match ds with
  | [] => best_i
  | d :: rest =>
      if Qltb best d then argmax_from i d (S i) rest
      else argmax_from best_i best (S i) rest
  end.

Definition KneeLocator (x : list Z) (y : list Q) (S : Q)
  (curve direction interp_method : string) : outcome Kneedle :=
  if negb (Nat.eqb (List.length x) (List.length y))
  then Raise (ValueError "x and y must have same first dimension")
  else
    match map inject_Z x, y with
    | x0 :: xs, y0 :: ys =>
        let xmin := Qmin_list xs x0 in let xmax := Qmax_list xs x0 in
        let ymin := Qmin_list ys y0 in let ymax := Qmax_list ys y0 in
        if Qle_bool xmax xmin || Qle_bool ymax ymin
        then Return {| elbow := None |}
        else
          let diff :=
            map (fun xy => Qred ((ymax - snd xy) / (ymax - ymin)
                                 - (fst xy - xmin) / (xmax - xmin))%Q)
                (combine (x0 :: xs) (y0 :: ys)) in
          match diff with
          | [] => Return {| elbow := None |}
          | d0 :: ds => Return {| elbow := nth_error x (argmax_from 0 d0 1 ds) |}
          end
    | _, _ => Raise (ValueError "zero-size array to reduction operation minimum which has no identity")
    end.

#[export] Instance kneed : Kneed := Build_Kneed KneeLocator.

End Ref.

(** ** Inputs used in the examples *)

(** A 2x2 image: red, blue / blue, red. *)
Definition two_by_two : Image :=
  {| mode := "RGB";
     getdata := [[255; 0; 0]; [0; 0; 255]; [0; 0; 255]; [255; 0; 0]] |}.

(** A single black pixel. *)
Definition one_pixel : Image := {| mode := "RGB"; getdata := [[0; 0; 0]] |}.

(** An image of no pixel at all. *)
Definition no_pixels : Image := {| mode := "RGB"; getdata := [] |}.

(** The local variables of [get_dominant_colors] on that image with two
    colours, under the reference libraries. *)
Definition two_by_two_locals : locals :=
  {| pixels := [[255; 0; 0]; [0; 0; 255]; [0; 0; 255]; [255; 0; 0]]%Q;
     colors := [[0; 0; 255]; [255; 0; 0]]%Q;
     labels := [1; 0; 0; 1]%nat;
     label_counts := [(1%nat, 2); (0%nat, 2)] |}.

(** Two rows of a pixel matrix. *)
Definition black : point := [0; 0; 0]%Q.
Definition white : point := [255; 255; 255]%Q.

(** A pixel matrix of 200000 rows: 100000 white ones, then 100000 black
    ones. *)
Definition white_then_black : list point :=
  repeat white (Z.to_nat 100000) ++ repeat black (Z.to_nat 100000).


(** A 4x3 image in grey levels. *)
Definition grey_ramp : Image :=
  {| mode := "L";
     getdata := [[0]; [0]; [0]; [10]; [10]; [10]; [200]; [200]; [200]; [255]; [255]; [255]] |}.

(** * Properties *)

(** ** Hexadecimal formatting *)

Lemma string_length_app (a b : string) :
  String.length (a ++ b) = (String.length a + String.length b)%nat.
Proof. induction a as [|c a IH]; simpl; [reflexivity | now rewrite IH]. Qed.

Lemma chars_app (a b : string) :
  list_ascii_of_string (a ++ b) = list_ascii_of_string a ++ list_ascii_of_string b.
Proof. induction a as [|c a IH]; simpl; [reflexivity | now rewrite IH]. Qed.

Lemma to_hex_aux_grows fuel : forall n acc,
  (String.length acc <= String.length (to_hex_aux fuel n acc))%nat.
Proof.
  induction fuel as [|fuel IH]; intros n acc; simpl; [lia|].
  destruct (n / 16 =? 0); simpl; [lia|].
  specialize (IH (n / 16) (String (hex_digit (n mod 16)) acc)). simpl in IH. lia.
Qed.

Lemma to_hex_nonempty n : (1 <= String.length (to_hex n))%nat.
Proof.
  unfold to_hex. simpl. destruct (n / 16 =? 0); simpl; [lia|].
  pose proof (to_hex_aux_grows (Z.to_nat (Z.log2 n)) (n / 16)
                (String (hex_digit (n mod 16)) EmptyString)) as H.
  simpl in H. lia.
Qed.

Lemma to_hex_one_digit n :
  0 <= n < 16 -> to_hex n = String (hex_digit n) EmptyString.
Proof.
  intros H. unfold to_hex. simpl.
  rewrite (Z.div_small n 16), (Z.mod_small n 16) by lia. reflexivity.
Qed.

Lemma to_hex_two_digits n :
  16 <= n < 256 -> to_hex n = hex2 n.
Proof.
  intros H. unfold to_hex, hex2.
  assert (Hlog : 4 <= Z.log2 n) by (change 4 with (Z.log2 16); apply Z.log2_le_mono; lia).
  destruct (Z.to_nat (Z.log2 n)) as [|fuel] eqn:E; [lia|].
  assert (Hq : 1 <= n / 16 < 16).
  { split; [apply Z.div_le_lower_bound | apply Z.div_lt_upper_bound]; lia. }
  simpl.
  destruct (n / 16 =? 0) eqn:E1; [apply Z.eqb_eq in E1; lia|].
  rewrite (Z.div_small (n / 16) 16), (Z.mod_small (n / 16) 16) by lia.
  reflexivity.
Qed.

Lemma to_hex_three_digits n :
  256 <= n -> (3 <= String.length (to_hex n))%nat.
Proof.
  intros H. unfold to_hex.
  assert (Hlog : 8 <= Z.log2 n) by (change 8 with (Z.log2 256); apply Z.log2_le_mono; lia).
  destruct (Z.to_nat (Z.log2 n)) as [|[|fuel]] eqn:E; try lia.
  assert (Hq : 16 <= n / 16) by (apply Z.div_le_lower_bound; lia).
  assert (Hqq : 1 <= n / 16 / 16) by (apply Z.div_le_lower_bound; lia).
  simpl.
  destruct (n / 16 =? 0) eqn:E1; [apply Z.eqb_eq in E1; lia|].
  destruct (n / 16 / 16 =? 0) eqn:E2; [apply Z.eqb_eq in E2; lia|].
  destruct (n / 16 / 16 / 16 =? 0); simpl; [lia|].
  match goal with
  | |- (_ <= String.length (to_hex_aux ?f ?m ?acc))%nat =>
      pose proof (to_hex_aux_grows f m acc) as Hg; simpl in Hg; lia
  end.
Qed.

Lemma hex_digit_is_hex d : is_hex_digit (hex_digit d) = true.
Proof.
  destruct (Z_lt_le_dec d 0) as [Hn|Hp].
  - destruct d; try lia. reflexivity.
  - destruct (Z_lt_le_dec d 16) as [Hs|Hb].
    + assert (Hd : d = 0 \/ d = 1 \/ d = 2 \/ d = 3 \/ d = 4 \/ d = 5 \/ d = 6 \/ d = 7
                   \/ d = 8 \/ d = 9 \/ d = 10 \/ d = 11 \/ d = 12 \/ d = 13 \/ d = 14
                   \/ d = 15) by lia.
      repeat (destruct Hd as [Hd|Hd]; [subst d; reflexivity|]). subst d; reflexivity.
    + assert (Hf : hex_digit d = "f"%char).
      { destruct d as [|p|p]; try lia.
        do 4 (destruct p as [p|p|]; try lia; try reflexivity). }
      rewrite Hf. reflexivity.
Qed.

Lemma format_02x_byte z : 0 <= z <= 255 -> format_0x 2 z = hex2 z.
Proof.
  intros H. unfold format_0x.
  destruct (z <? 0) eqn:E; [apply Z.ltb_lt in E; lia|].
  rewrite Z.abs_eq by lia.
  destruct (Z_lt_le_dec z 16) as [Hs|Hb].
  - rewrite to_hex_one_digit by lia. unfold hex2.
    rewrite (Z.div_small z 16), (Z.mod_small z 16) by lia. reflexivity.
  - rewrite to_hex_two_digits by lia. reflexivity.
Qed.

Lemma format_02x_length_ge z : (2 <= String.length (format_0x 2 z))%nat.
Proof.
  assert (Hz : forall n, String.length (zeros n) = n)
    by (induction n; simpl; congruence).
  unfold format_0x. pose proof (to_hex_nonempty (Z.abs z)) as Hd.
  destruct (z <? 0); rewrite !string_length_app, Hz;
    set (d := String.length (to_hex (Z.abs z))) in *;
    change (String.length (String "-" EmptyString)) with 1%nat;
    change (String.length EmptyString) with 0%nat; lia.
Qed.

(** A formatted channel is two hexadecimal digits exactly when the channel
    is in [0,255]. *)
Lemma format_02x_two_hex_digits z :
  String.length (format_0x 2 z) = 2%nat ->
  forallb is_hex_digit (list_ascii_of_string (format_0x 2 z)) = true ->
  0 <= z <= 255.
Proof.
  intros Hlen Hhex.
  destruct (Z_lt_le_dec z 0) as [Hn|Hp].
  - exfalso. unfold format_0x in Hhex.
    destruct (z <? 0) eqn:E; [|apply Z.ltb_ge in E; lia].
    simpl in Hhex. discriminate.
  - destruct (Z_lt_le_dec 255 z) as [Hb|Hs]; [|lia].
    exfalso. unfold format_0x in Hlen.
    destruct (z <? 0) eqn:E; [apply Z.ltb_lt in E; lia|].
    rewrite !string_length_app in Hlen.
    pose proof (to_hex_three_digits (Z.abs z)) as H3.
    rewrite Z.abs_eq in * by lia. specialize (H3 ltac:(lia)). lia.
Qed.

(** ** Truncation *)

Lemma trunc_nonneg_floor (q : Q) :
  (0 <= q)%Q -> (inject_Z (trunc q) <= q)%Q /\ (q < inject_Z (trunc q) + 1)%Q.
Proof.
  destruct q as [n d]. unfold Qle, Qlt, trunc. simpl. intros H.
  rewrite Z.quot_div_nonneg by lia.
  pose proof (Z.mul_div_le n (Z.pos d) ltac:(lia)).
  pose proof (Z.mul_succ_div_gt n (Z.pos d) ltac:(lia)).
  split; nia.
Qed.

Lemma trunc_byte (q : Q) : (0 <= q <= 255)%Q -> 0 <= trunc q <= 255.
Proof.
  destruct q as [n d]. unfold Qle, trunc. simpl. intros [H0 H1].
  rewrite Z.quot_div_nonneg by lia. split.
  - apply Z.div_pos; lia.
  - apply Z.div_le_upper_bound; lia.
Qed.

(** ** [rgb_to_hex] *)

Lemma hex_code_well_formed r g b :
  is_hex_color (hex_code r g b) = true /\ String.length (hex_code r g b) = 7%nat.
Proof.
  split; [|reflexivity]. unfold hex_code, hex2. simpl.
  now rewrite !hex_digit_is_hex.
Qed.

Lemma rgb_to_hex_ints (r g b : Z) :
  rgb_to_hex [PyInt r; PyInt g; PyInt b]
  = Return ("#" ++ format_0x 2 r ++ format_0x 2 g ++ format_0x 2 b)%string.
Proof. reflexivity. Qed.

Lemma rgb_to_hex_bytes (r g b : Z) :
  0 <= r <= 255 -> 0 <= g <= 255 -> 0 <= b <= 255 ->
  rgb_to_hex [PyInt r; PyInt g; PyInt b] = Return (hex_code r g b).
Proof.
  intros Hr Hg Hb. rewrite rgb_to_hex_ints, !format_02x_byte by assumption.
  reflexivity.
Qed.

Lemma nearest_integer_three_quarters z : nearest_integer (3 # 4) z -> z = 1.
Proof.
  intros H. specialize (H 1).
  assert (E : (Qabs ((3 # 4) - inject_Z 1) == 1 # 4)%Q) by reflexivity.
  rewrite E in H. apply Qabs_Qle_condition in H. destruct H as [H1 H2].
  unfold Qle, Qminus, Qplus, Qopp, inject_Z in H1, H2. cbn [Qnum Qden] in H1, H2. lia.
Qed.

(** C8, as stated, fails: the channel 0.75 is nearest to 1 and comes out
    as [00]. *)
Lemma rgb_to_hex_does_not_round :
  rgb_to_hex [PyFloat (Finite (3 # 4)); PyFloat (Finite 0); PyFloat (Finite 0)]
  = Return "#000000"%string
  /\ nearest_integer (3 # 4) 1
  /\ ~ rounds_to_nearest.
Proof.
  split; [reflexivity|]. split.
  - intros z'.
    assert (E : (Qabs ((3 # 4) - inject_Z 1) == 1 # 4)%Q) by reflexivity.
    rewrite E.
    destruct (Z_le_gt_dec z' 0) as [Hz|Hz]; [rewrite Qabs_pos | rewrite Qabs_neg];
      unfold Qle, Qminus, Qplus, Qopp, inject_Z; cbn [Qnum Qden]; lia.
  - intros H.
    destruct (H (3 # 4) 0 0)%Q as (zr & zg & zb & Hr & _ & _ & E);
      try (unfold Qle; simpl; lia).
    apply nearest_integer_three_quarters in Hr. subst zr.
    vm_compute in E. discriminate E.
Qed.

(** C8 (amended).  For a colour vector with float channels in [0,255],
    every channel is truncated toward zero (for these non-negative values:
    rounded down, not to the nearest integer) to an integer in [0,255] and
    written as two lowercase hexadecimal digits, R, G, B after a ['#'].
    The result has seven characters, and it is the same whether the floats
    reach [rgb_to_hex] directly or through the integer array that
    [get_dominant_colors] returns. *)
Theorem rgb_to_hex_truncates (r g b : Q) :
  (0 <= r <= 255)%Q -> (0 <= g <= 255)%Q -> (0 <= b <= 255)%Q ->
  (0 <= trunc r <= 255 /\ (inject_Z (trunc r) <= r < inject_Z (trunc r) + 1)%Q)
  /\ (0 <= trunc g <= 255 /\ (inject_Z (trunc g) <= g < inject_Z (trunc g) + 1)%Q)
  /\ (0 <= trunc b <= 255 /\ (inject_Z (trunc b) <= b < inject_Z (trunc b) + 1)%Q)
  /\ rgb_to_hex [PyFloat (Finite r); PyFloat (Finite g); PyFloat (Finite b)]
     = Return (hex_code (trunc r) (trunc g) (trunc b))
  /\ map (fun row => rgb_to_hex (int_row row)) (astype_int [[r; g; b]])
     = [Return (hex_code (trunc r) (trunc g) (trunc b))]
  /\ is_hex_color (hex_code (trunc r) (trunc g) (trunc b)) = true
  /\ String.length (hex_code (trunc r) (trunc g) (trunc b)) = 7%nat.
Proof.
  intros Hr Hg Hb.
  pose proof (trunc_byte r Hr) as Br. pose proof (trunc_byte g Hg) as Bg.
  pose proof (trunc_byte b Hb) as Bb.
  repeat split; try (apply trunc_byte; assumption);
    try (apply trunc_nonneg_floor; tauto);
    try apply hex_code_well_formed.
  - change (rgb_to_hex [PyFloat (Finite r); PyFloat (Finite g); PyFloat (Finite b)])
      with (rgb_to_hex [PyInt (trunc r); PyInt (trunc g); PyInt (trunc b)]).
    now apply rgb_to_hex_bytes.
  - cbn [astype_int int_row map]. now rewrite rgb_to_hex_bytes.
Qed.

(** The three colours the specification names: black, white and red. *)
Lemma rgb_to_hex_truncates_witness :
  ((0 <= 255 <= 255)%Q /\ (0 <= 0 <= 255)%Q)
  /\ rgb_to_hex [PyFloat (Finite 0); PyFloat (Finite 0); PyFloat (Finite 0)]
     = Return "#000000"%string
  /\ rgb_to_hex [PyFloat (Finite 255); PyFloat (Finite 255); PyFloat (Finite 255)]
     = Return "#ffffff"%string
  /\ rgb_to_hex [PyFloat (Finite 255); PyFloat (Finite 0); PyFloat (Finite 0)]
     = Return "#ff0000"%string.
Proof.
  assert (H0 : (0 <= 0 <= 255)%Q) by (split; unfold Qle; simpl; lia).
  assert (H255 : (0 <= 255 <= 255)%Q) by (split; unfold Qle; simpl; lia).
  split; [split; assumption|].
  split; [|split].
  - exact (proj1 (proj2 (proj2 (proj2 (rgb_to_hex_truncates 0 0 0 H0 H0 H0))))).
  - exact (proj1 (proj2 (proj2 (proj2 (rgb_to_hex_truncates 255 255 255 H255 H255 H255))))).
  - exact (proj1 (proj2 (proj2 (proj2 (rgb_to_hex_truncates 255 0 0 H255 H0 H0))))).
Defined.

(** C10.  [rgb_to_hex] neither clamps nor checks its channels: on integer
    channels it always returns the three formatted channels after a ['#'],
    and that string is a ['#'] followed by six hexadecimal digits exactly
    when every channel lies in [0,255].  With a channel 256 or -1 it is
    not. *)
Theorem rgb_to_hex_no_clamping :
  (forall r g b : Z,
      rgb_to_hex [PyInt r; PyInt g; PyInt b]
      = Return ("#" ++ format_0x 2 r ++ format_0x 2 g ++ format_0x 2 b)%string
      /\ returns_hex_color (rgb_to_hex [PyInt r; PyInt g; PyInt b])
         = in_byte_range r && in_byte_range g && in_byte_range b)
  /\ rgb_to_hex [PyInt 256; PyInt 0; PyInt 0] = Return "#1000000"%string
  /\ is_hex_color "#1000000" = false
  /\ rgb_to_hex [PyInt (-1); PyInt 0; PyInt 0] = Return "#-10000"%string
  /\ is_hex_color "#-10000" = false.
Proof.
  split; [|repeat split; reflexivity].
  intros r g b. split; [reflexivity|].
  rewrite rgb_to_hex_ints. cbn [returns_hex_color].
  destruct (in_byte_range r && in_byte_range g && in_byte_range b) eqn:E.
  - unfold in_byte_range in E.
    apply andb_prop in E as [E Eb]. apply andb_prop in E as [Er Eg].
    rewrite !format_02x_byte by lia. apply hex_code_well_formed.
  - apply not_true_is_false. intros H. cbn [append is_hex_color] in H.
    apply andb_prop in H as [Hlen Hhex]. apply Nat.eqb_eq in Hlen.
    rewrite !string_length_app in Hlen.
    rewrite !chars_app, !forallb_app in Hhex.
    apply andb_prop in Hhex as [Hr Hhex]. apply andb_prop in Hhex as [Hg Hb].
    pose proof (format_02x_length_ge r). pose proof (format_02x_length_ge g).
    pose proof (format_02x_length_ge b).
    pose proof (format_02x_two_hex_digits r ltac:(lia) Hr).
    pose proof (format_02x_two_hex_digits g ltac:(lia) Hg).
    pose proof (format_02x_two_hex_digits b ltac:(lia) Hb).
    unfold in_byte_range in E.
    assert (E' : (0 <=? r) && (r <=? 255) && ((0 <=? g) && (g <=? 255))
                 && ((0 <=? b) && (b <=? 255)) = true).
    { repeat (apply andb_true_intro; split); lia. }
    congruence.
Qed.

(** ** [find_optimal_k_elbow] *)

Section Elbow.
Context `{Kneed}.
Variables (wcss_values : list Q) (k_range : list Z) (shown : streamlit).

Lemma find_optimal_k_elbow_run :
  find_optimal_k_elbow wcss_values k_range shown
  = match locate_knee wcss_values k_range with
    | Return kneedle =>
        (Return (match elbow kneedle with Some k => Z.max 2 k | None => 5 end), shown)
    | Raise e => (Return 5, shown ++ [elbow_warning e])
    end.
Proof.
  unfold find_optimal_k_elbow, try_except, lift. cbn.
  destruct (locate_knee wcss_values k_range); reflexivity.
Qed.

(** C1.  Whatever the detector does on the curve, [find_optimal_k_elbow]
    returns an integer, and that integer is at least 2; a knee reported
    at k = 1 gives 2. *)
Theorem find_optimal_k_elbow_at_least_2 :
  exists (k : Z) (shown' : streamlit),
    find_optimal_k_elbow wcss_values k_range shown = (Return k, shown')
    /\ 2 <= k
    /\ (locate_knee wcss_values k_range = Return {| elbow := Some 1 |} -> k = 2).
Proof.
  rewrite find_optimal_k_elbow_run.
  destruct (locate_knee wcss_values k_range) as [[[k|]]|e].
  - exists (Z.max 2 k), shown. repeat split; [lia|].
    intros E. injection E as ->. reflexivity.
  - exists 5, shown. repeat split; [lia|]. discriminate.
  - exists 5, (shown ++ [elbow_warning e]). repeat split; [lia|]. discriminate.
Qed.

(** C2.  If the detector raises, or finds no knee, the function returns
    exactly 5.  An exception of the detector ends in a warning on the
    page, never in an exception of [find_optimal_k_elbow]. *)
Theorem find_optimal_k_elbow_fallback :
  (exists e, locate_knee wcss_values k_range = Raise e)
  \/ locate_knee wcss_values k_range = Return {| elbow := None |} ->
  find_optimal_k_elbow wcss_values k_range shown
  = (Return 5,
     match locate_knee wcss_values k_range with
     | Raise e => shown ++ [elbow_warning e]
     | Return _ => shown
     end).
Proof.
  rewrite find_optimal_k_elbow_run.
  intros [[e E]|E]; rewrite E; reflexivity.
Qed.
End Elbow.

(** A curve whose knee the reference detector puts at k = 1. *)
Lemma find_optimal_k_elbow_at_least_2_witness :
  locate_knee (H := Ref.kneed) [10; 9; 0]%Q [1; 2; 3] = Return {| elbow := Some 1 |}
  /\ exists k shown',
      find_optimal_k_elbow (H := Ref.kneed) [10; 9; 0]%Q [1; 2; 3] [] = (Return k, shown')
      /\ k = 2.
Proof.
  assert (E : locate_knee (H := Ref.kneed) [10; 9; 0]%Q [1; 2; 3]
              = Return {| elbow := Some 1 |}) by (vm_compute; reflexivity).
  split; [exact E|].
  destruct (find_optimal_k_elbow_at_least_2 (H := Ref.kneed) [10; 9; 0]%Q [1; 2; 3] [])
    as (k & shown' & Hrun & _ & Hk).
  exists k, shown'. split; [exact Hrun | exact (Hk E)].
Defined.

(** A detector exception (curve and range of different lengths) and a flat
    curve, on the reference detector. *)
Lemma find_optimal_k_elbow_fallback_witness :
  (locate_knee (H := Ref.kneed) [10; 10]%Q [1; 2; 3]
   = Raise (ValueError "x and y must have same first dimension")
   /\ fst (find_optimal_k_elbow (H := Ref.kneed) [10; 10]%Q [1; 2; 3] []) = Return 5)
  /\ (locate_knee (H := Ref.kneed) [10; 10; 10]%Q [1; 2; 3]
      = Return {| elbow := None |}
      /\ find_optimal_k_elbow (H := Ref.kneed) [10; 10; 10]%Q [1; 2; 3] [] = (Return 5, [])).
Proof.
  split; split.
  - vm_compute. reflexivity.
  - rewrite (find_optimal_k_elbow_fallback (H := Ref.kneed) [10; 10]%Q [1; 2; 3] []).
    + reflexivity.
    + left. eexists. vm_compute. reflexivity.
  - vm_compute. reflexivity.
  - rewrite (find_optimal_k_elbow_fallback (H := Ref.kneed) [10; 10; 10]%Q [1; 2; 3] []).
    + reflexivity.
    + right. vm_compute. reflexivity.
Defined.

(** ** [Counter] and [most_common] *)

Lemma population_app labels x l :
  population (labels ++ [x]) l = population labels l + (if Nat.eqb x l then 1 else 0).
Proof.
  unfold population. rewrite count_occ_app. simpl.
  destruct (Nat.eq_dec x l) as [E|E].
  - apply Nat.eqb_eq in E. rewrite E. lia.
  - apply Nat.eqb_neq in E. rewrite E. lia.
Qed.

Lemma existsb_eqb_In x acc : existsb (Nat.eqb x) acc = true <-> In x acc.
Proof.
  rewrite existsb_exists. split.
  - intros (y & Hy & E). apply Nat.eqb_eq in E. now subst.
  - intros H. exists x. split; [assumption | apply Nat.eqb_refl].
Qed.

Lemma first_seen_snoc xs x : first_seen (xs ++ [x]) = seen_add (first_seen xs) x.
Proof. unfold first_seen. now rewrite fold_left_app. Qed.

Lemma seen_add_In acc x y : In y (seen_add acc x) <-> In y acc \/ y = x.
Proof.
  unfold seen_add. destruct (existsb (Nat.eqb x) acc) eqn:E.
  - apply existsb_eqb_In in E. split; [tauto | intros [H| ->]; assumption].
  - rewrite in_app_iff. simpl. split; intros [H|H]; auto.
    + destruct H as [H|[]]. auto.
Qed.

Lemma first_seen_In xs : forall y, In y (first_seen xs) <-> In y xs.
Proof.
  induction xs as [|x xs IH] using rev_ind; intros y.
  - reflexivity.
  - rewrite first_seen_snoc, seen_add_In, in_app_iff, IH. simpl. intuition.
Qed.

Lemma first_seen_NoDup xs : NoDup (first_seen xs).
Proof.
  induction xs as [|x xs IH] using rev_ind.
  - constructor.
  - rewrite first_seen_snoc. unfold seen_add.
    destruct (existsb (Nat.eqb x) (first_seen xs)) eqn:E; [assumption|].
    apply NoDup_app; [assumption | repeat constructor; intros [] | ].
    intros y Hy [<-|[]].
    apply existsb_eqb_In in Hy. congruence.
Qed.

(** One more occurrence of [x], on a counter given by its keys and a count
    function. *)
Lemma counter_incr_map (f f' : nat -> Z) (x : nat) (keys : list nat) :
  NoDup keys ->
  (~ In x keys -> f x = 0) ->
  (forall l, f' l = f l + (if Nat.eqb x l then 1 else 0)) ->
  counter_incr (map (fun l => (l, f l)) keys) x
  = map (fun l => (l, f' l)) (seen_add keys x).
Proof.
  intros Hnd H0 Hf'. unfold seen_add.
  induction keys as [|k keys IH].
  - simpl. rewrite Hf', Nat.eqb_refl, H0 by (intros []). reflexivity.
  - inversion Hnd as [|? ? Hk Hnd']; subst. simpl.
    destruct (Nat.eqb x k) eqn:E.
    + apply Nat.eqb_eq in E. subst k. simpl.
      rewrite Hf', Nat.eqb_refl. f_equal.
      apply map_ext_in. intros l Hl. rewrite Hf'.
      destruct (Nat.eqb x l) eqn:E; [apply Nat.eqb_eq in E; congruence|].
      now rewrite Z.add_0_r.
    + simpl. rewrite IH; [| assumption | intros Hx; apply H0; intros [->|H]].
      * destruct (existsb (Nat.eqb x) keys); simpl;
          rewrite (Hf' k), E, Z.add_0_r; reflexivity.
      * apply Nat.eqb_neq in E. congruence.
      * contradiction.
Qed.

(** A counter lists the distinct elements in the order of their first
    occurrence, each with the number of its occurrences. *)
Lemma Counter_spec xs :
  Counter xs = map (fun l => (l, population xs l)) (first_seen xs).
Proof.
  unfold Counter.
  induction xs as [|x xs IH] using rev_ind.
  - reflexivity.
  - rewrite fold_left_app. simpl. rewrite IH, first_seen_snoc.
    apply counter_incr_map.
    + apply first_seen_NoDup.
    + intros Hx. unfold population.
      rewrite (proj1 (count_occ_not_In Nat.eq_dec xs x)); [reflexivity|].
      now rewrite <- first_seen_In.
    + intros l. apply population_app.
Qed.


Lemma insert_by_count_perm e l : Permutation (insert_by_count e l) (e :: l).
Proof.
  induction l as [|h t IH]; simpl; [reflexivity|].
  destruct (snd e <? snd h); [|reflexivity].
  rewrite IH. apply perm_swap.
Qed.

Lemma most_common_perm c : Permutation (most_common c) c.
Proof.
  induction c as [|e c IH]; simpl; [reflexivity|].
  rewrite insert_by_count_perm. now constructor.
Qed.

Lemma insert_by_count_sorted e l :
  StronglySorted by_count_desc l ->
  StronglySorted by_count_desc (insert_by_count e l).
Proof.
  induction 1 as [|h t Hs IH Hall]; simpl.
  - repeat constructor.
  - destruct (snd e <? snd h) eqn:E.
    + apply Z.ltb_lt in E. constructor; [assumption|].
      rewrite Forall_forall in *. intros y Hy.
      apply (Permutation_in _ (insert_by_count_perm e t)) in Hy.
      destruct Hy as [<-|Hy]; [unfold by_count_desc; lia | auto].
    + apply Z.ltb_ge in E. constructor; [constructor; assumption|].
      constructor; [exact E|].
      rewrite Forall_forall in *. intros y Hy. specialize (Hall y Hy).
      unfold by_count_desc in *. lia.
Qed.

Lemma most_common_sorted c : StronglySorted by_count_desc (most_common c).
Proof.
  induction c as [|e c IH]; simpl; [constructor | now apply insert_by_count_sorted].
Qed.

(** The sort is stable: the entries of any given count keep their order. *)
Lemma insert_by_count_stable n e l :
  filter (fun x => snd x =? n) (insert_by_count e l)
  = filter (fun x => snd x =? n) (e :: l).
Proof.
  induction l as [|h t IH]; [reflexivity|].
  cbn [insert_by_count]. destruct (snd e <? snd h) eqn:E; [|reflexivity].
  apply Z.ltb_lt in E. cbn [filter] in *. rewrite IH.
  destruct (snd e =? n) eqn:En, (snd h =? n) eqn:Hn; try reflexivity.
  apply Z.eqb_eq in En, Hn. lia.
Qed.

Lemma most_common_stable n c :
  filter (fun x => snd x =? n) (most_common c) = filter (fun x => snd x =? n) c.
Proof.
  induction c as [|e c IH]; [reflexivity|].
  cbn [most_common fold_right]. rewrite insert_by_count_stable.
  cbn [filter]. fold (most_common c). now rewrite IH.
Qed.


Lemma most_common_counts xs :
  Forall (fun e => snd e = population xs (fst e)) (most_common (Counter xs)).
Proof.
  rewrite Forall_forall. intros e He.
  apply (Permutation_in _ (most_common_perm _)) in He.
  rewrite Counter_spec in He. apply in_map_iff in He as (l & <- & _). reflexivity.
Qed.

(** ** Helpers on outcomes and arrays *)

Lemma mapM_Return {A B : Type} (f : A -> outcome B) (l : list A) (ys : list B) :
  mapM f l = Return ys -> Forall2 (fun x y => f x = Return y) l ys.
Proof.
  revert ys. induction l as [|a l IH]; intros ys E; simpl in E.
  - injection E as <-. constructor.
  - destruct (f a) as [b|e] eqn:Ea; [|discriminate].
    destruct (mapM f l) as [bs|e] eqn:El; [|discriminate].
    injection E as <-. constructor; auto.
Qed.

Lemma mapM_Raise {A B : Type} (f : A -> outcome B) (l : list A) (e : exn) :
  mapM f l = Raise e -> exists a, In a l /\ f a = Raise e.
Proof.
  induction l as [|a l IH]; intros E; simpl in E; [discriminate|].
  destruct (f a) as [b|e'] eqn:Ea.
  - destruct (mapM f l) as [bs|e''] eqn:El; [discriminate|].
    injection E as ->. destruct (IH eq_refl) as (a' & Hin & Ha'). exists a'. simpl. auto.
  - injection E as ->. exists a. simpl. auto.
Qed.

Lemma mapM_total {A B : Type} (f : A -> outcome B) (g : A -> B) (l : list A) :
  Forall (fun a => f a = Return (g a)) l -> mapM f l = Return (map g l).
Proof.
  induction 1 as [|a l Ha _ IH]; simpl; [reflexivity|]. now rewrite Ha, IH.
Qed.

Lemma getitem_in_range {A : Type} (l : list A) (i : nat) (d : A) :
  (i < List.length l)%nat -> getitem l i = Return (nth i l d).
Proof.
  intros H. unfold getitem.
  now rewrite (nth_error_nth' l d H).
Qed.

Lemma getitem_Return {A : Type} (l : list A) (i : nat) (a d : A) :
  getitem l i = Return a -> (i < List.length l)%nat /\ a = nth i l d.
Proof.
  unfold getitem. destruct (nth_error l i) as [x|] eqn:E; [|discriminate].
  intros H. injection H as <-. split.
  - apply nth_error_Some. congruence.
  - symmetry. now apply nth_error_nth.
Qed.

Lemma reshape3_concat (rows : list (list Z)) :
  Forall (fun px => List.length px = 3%nat) rows ->
  reshape3 (List.concat rows) = Return rows.
Proof.
  induction 1 as [|px rows Hpx _ IH]; [reflexivity|].
  destruct px as [|a [|b [|c [|d px]]]]; try discriminate.
  cbn [List.concat app reshape3]. now rewrite IH.
Qed.

(** ** [get_dominant_colors] *)

Section Palette.
Context `{PIL} `{Sklearn}.

Lemma pixel_matrix_rows (image : Image) :
  convert_law -> wf_image image = true ->
  pixel_matrix image = Return (float32 (getdata (as_rgb image)))
  /\ len (float32 (getdata (as_rgb image))) = pixel_count image.
Proof.
  intros Hc Hwf. unfold pixel_matrix.
  assert (Hrgb : mode (as_rgb image) = "RGB"%string
                 /\ wf_image (as_rgb image) = true
                 /\ pixel_count (as_rgb image) = pixel_count image).
  { unfold as_rgb. destruct (String.eqb (mode image) "RGB") eqn:E; simpl.
    - apply String.eqb_eq in E. auto.
    - apply Hc, Hwf. }
  destruct Hrgb as (Hm & Hw & Hn).
  unfold np_array. rewrite reshape3_concat.
  - split; [reflexivity|]. unfold float32, len. rewrite length_map. exact Hn.
  - unfold wf_image in Hw. rewrite Hm in Hw. rewrite forallb_forall in Hw.
    rewrite Forall_forall. intros px Hpx. now apply Nat.eqb_eq, Hw.
Qed.

Lemma cluster_pixels_Return image k vars :
  cluster_pixels image k = Return vars ->
  exists m,
    pixel_matrix image = Return (pixels vars)
    /\ fit {| n_clusters := k; random_state := 42; n_init := 10 |} (pixels vars) = Return m
    /\ colors vars = cluster_centers_ m
    /\ labels vars = predict m (pixels vars)
    /\ label_counts vars = Counter (labels vars).
Proof.
  unfold cluster_pixels. cbn [bind Monad_outcome ret].
  destruct (pixel_matrix image) as [X|e]; [|discriminate].
  destruct (fit _ X) as [m|e] eqn:Ef; [|discriminate].
  intros E. injection E as <-. exists m. cbn. auto.
Qed.

Lemma get_dominant_colors_Return image k cols :
  get_dominant_colors image k = Return cols ->
  exists vars,
    cluster_pixels image k = Return vars
    /\ Forall (fun i => (i < List.length (colors vars))%nat) (ranking vars)
    /\ cols = astype_int (map (fun i => nth i (colors vars) []) (ranking vars)).
Proof.
  unfold get_dominant_colors. cbn [bind Monad_outcome ret].
  destruct (cluster_pixels image k) as [vars|e]; [|discriminate].
  destruct (mapM _ (most_common (label_counts vars))) as [sorted|e] eqn:E; [|discriminate].
  intros Hc. injection Hc as <-. exists vars. split; [reflexivity|].
  apply mapM_Return in E. unfold ranking.
  induction E as [|[i n] c es cs Hic _ IH]; cbn [map].
  - split; [constructor | reflexivity].
  - apply (getitem_Return _ _ _ []) in Hic as [Hlt ->].
    destruct IH as [IH1 IH2]. split; [constructor; assumption|].
    unfold astype_int in *. cbn [map]. f_equal. exact IH2.
Qed.

Lemma ranking_of_labels vars :
  label_counts vars = Counter (labels vars) ->
  Permutation (ranking vars) (first_seen (labels vars))
  /\ StronglySorted
       (fun i j => population (labels vars) j <= population (labels vars) i)
       (ranking vars)
  /\ forall n,
      filter (fun i => population (labels vars) i =? n) (ranking vars)
      = filter (fun i => population (labels vars) i =? n) (first_seen (labels vars)).
Proof.
  intros Hc. unfold ranking. rewrite Hc.
  pose proof (most_common_counts (labels vars)) as Hcounts.
  pose proof (most_common_sorted (Counter (labels vars))) as Hsorted.
  assert (Hkeys : map fst (Counter (labels vars)) = first_seen (labels vars)).
  { rewrite Counter_spec, map_map. cbn. apply map_id. }
  split; [|split].
  - rewrite <- Hkeys. apply Permutation_map, most_common_perm.
  - induction Hsorted as [|e es Hs IH Hall]; cbn [map]; [constructor|].
    inversion Hcounts as [|? ? He Hes]; subst.
    constructor; [auto|].
    rewrite Forall_forall in *. intros j Hj.
    apply in_map_iff in Hj as (e' & <- & He').
    specialize (Hall e' He'). specialize (Hes e' He').
    unfold by_count_desc in Hall. lia.
  - intros n. rewrite <- Hkeys.
    assert (G : forall es, Forall (fun e => snd e = population (labels vars) (fst e)) es ->
                filter (fun i => population (labels vars) i =? n) (map fst es)
                = map fst (filter (fun x => snd x =? n) es)).
    { induction 1 as [|e es He _ IH]; [reflexivity|].
      cbn [map filter]. rewrite <- He, IH. now destruct (snd e =? n). }
    rewrite G by assumption. rewrite most_common_stable.
    rewrite G; [reflexivity|].
    rewrite Counter_spec, Forall_forall. intros e He.
    apply in_map_iff in He as (l & <- & _). reflexivity.
Qed.
End Palette.

(** ** The reference libraries satisfy the laws *)

Lemma ref_convert_law : convert_law (H := Ref.pil).
Proof.
  intros im _. cbn. unfold Ref.convert. cbn.
  split; [reflexivity|]. split.
  - unfold wf_image. cbn. apply forallb_forall. intros px Hpx.
    apply in_map_iff in Hpx as (q & <- & _).
    destruct q as [|a [|b [|c q]]]; reflexivity.
  - unfold pixel_count, len. cbn. now rewrite length_map.
Qed.

Lemma ref_lloyd_step_length X centers :
  List.length (Ref.lloyd_step X centers) = List.length centers.
Proof.
  unfold Ref.lloyd_step.
  rewrite length_map, length_combine, length_seq. apply Nat.min_id.
Qed.

Lemma ref_lloyd_length X : forall n centers,
  List.length (Ref.lloyd n X centers) = List.length centers.
Proof.
  induction n as [|n IH]; intros centers; [reflexivity|].
  cbn [Ref.lloyd]. rewrite IH. apply ref_lloyd_step_length.
Qed.

Lemma ref_argmin_from_lt ds : forall best_i best i,
  (best_i < i)%nat -> (Ref.argmin_from best_i best i ds < i + List.length ds)%nat.
Proof.
  induction ds as [|d ds IH]; intros best_i best i Hlt; cbn [Ref.argmin_from List.length].
  - lia.
  - destruct (Ref.Qltb d best).
    + specialize (IH i d (S i) ltac:(lia)). lia.
    + specialize (IH best_i best (S i) ltac:(lia)). lia.
Qed.

Lemma ref_nearest_lt centers p :
  centers <> [] -> (Ref.nearest centers p < List.length centers)%nat.
Proof.
  intros Hne. unfold Ref.nearest.
  destruct centers as [|c centers]; [congruence|]. cbn [map List.length].
  pose proof (ref_argmin_from_lt (map (Ref.sqdist p) centers) 0 (Ref.sqdist p c) 1 ltac:(lia)) as H.
  rewrite length_map in H. lia.
Qed.

(** The centres of a fit: those Lloyd's algorithm found when they leave no
    cluster empty, otherwise rows of the matrix. *)
Lemma ref_fit_centers km X m :
  Ref.fit km X = Return m ->
  1 <= n_clusters km <= len X
  /\ cluster_centers_ m
     = if Ref.populated
            (Ref.lloyd 4 X
               (Ref.init_centers (Z.to_nat (n_clusters km)) (random_state km) X)) X
       then Ref.lloyd 4 X
              (Ref.init_centers (Z.to_nat (n_clusters km)) (random_state km) X)
       else Ref.distinct_start (Z.to_nat (n_clusters km)) X.
Proof.
  unfold Ref.fit.
  destruct (n_clusters km <? 1) eqn:E1; [discriminate|].
  destruct (len X =? 0) eqn:E2; [discriminate|].
  destruct (len X <? n_clusters km) eqn:E3; [discriminate|].
  apply Z.ltb_ge in E1, E3. intros E.
  split; [lia|].
  apply (f_equal (fun o => match o with Return m' => cluster_centers_ m' | Raise _ => [] end))
    in E.
  symmetry. exact E.
Qed.

Lemma ref_fit_Return km X m :
  Ref.fit km X = Return m ->
  1 <= n_clusters km <= len X
  /\ List.length (cluster_centers_ m) = Z.to_nat (n_clusters km).
Proof.
  intros Hfit. apply ref_fit_centers in Hfit as [Hk ->]. split; [exact Hk|].
  destruct (Ref.populated _ X).
  - rewrite ref_lloyd_length. unfold Ref.init_centers.
    rewrite length_firstn, length_app, length_skipn, length_firstn.
    unfold len in *. lia.
  - unfold Ref.distinct_start. rewrite length_firstn, length_app.
    unfold len in *. lia.
Qed.

Lemma ref_predict_law : predict_law (H := Ref.sklearn).
Proof.
  intros km X m Hfit. cbn in Hfit. apply ref_fit_Return in Hfit as [Hk Hlen].
  split; [unfold len; lia|].
  intros Y. cbn. unfold Ref.predict. split; [apply length_map|].
  rewrite Forall_forall. intros l Hl. apply in_map_iff in Hl as (p & <- & _).
  apply ref_nearest_lt. intros E. rewrite E in Hlen. simpl in Hlen. lia.
Qed.

Lemma ref_fit_law : fit_law (H := Ref.sklearn).
Proof.
  intros km X. cbn. unfold Ref.fit. split; intros Hk.
  - destruct (n_clusters km <? 1) eqn:E1; [apply Z.ltb_lt in E1; unfold len in Hk; lia|].
    destruct (len X =? 0); [eexists; split; reflexivity|].
    destruct (len X <? n_clusters km) eqn:E; [eexists; split; reflexivity|].
    apply Z.ltb_ge in E. lia.
  - destruct (n_clusters km <? 1) eqn:E1; [apply Z.ltb_lt in E1; lia|].
    destruct (len X =? 0) eqn:E2; [apply Z.eqb_eq in E2; lia|].
    destruct (len X <? n_clusters km) eqn:E3; [apply Z.ltb_lt in E3; lia|].
    eexists. reflexivity.
Qed.

(** *** The reference fit leaves no cluster empty *)

Lemma unique_rows_In (p : point) (X : list point) : In p (unique_rows X) -> In p X.
Proof.
  induction X as [|q X IH]; [auto|]. cbn [unique_rows].
  destruct (existsb (same_row q) X).
  - intros Hp. right. now apply IH.
  - intros [->|Hp]; [now left | right; now apply IH].
Qed.






Lemma Qnorm_eq (q : Q) : (Ref.Qnorm q == q)%Q.
Proof. unfold Ref.Qnorm. destruct (Pos.eqb (Qden q) 1); [reflexivity | apply Qred_correct]. Qed.














Lemma ref_invalid_parameter_law : invalid_parameter_law (H := Ref.sklearn).
Proof.
  intros km X Hk. cbn. unfold Ref.fit.
  destruct (n_clusters km <? 1) eqn:E; [eexists; split; reflexivity|].
  apply Z.ltb_ge in E. lia.
Qed.

Lemma ref_choice_law : choice_law (H := Ref.numpy).
Proof.
  intros a size g Hsize. cbn. unfold Ref.random_choice.
  destruct (size <? 0) eqn:E1; [apply Z.ltb_lt in E1; lia|].
  assert (E2 : (a <=? 0) && negb (size =? 0) = false).
  { destruct (a <=? 0) eqn:Ea; [|reflexivity]. apply Z.leb_le in Ea.
    assert (size = 0) as -> by lia. reflexivity. }
  rewrite E2.
  destruct (a <? size) eqn:E3; [apply Z.ltb_lt in E3; lia|]. cbn [negb andb].
  eexists. eexists. split; [reflexivity|]. split.
  - unfold len. rewrite length_map, length_seq. lia.
  - rewrite Forall_forall. intros i Hi. apply in_map_iff in Hi as (j & <- & Hj).
    apply in_seq in Hj.
    pose proof (Z.mod_pos_bound (g + Z.of_nat j) a ltac:(lia)). lia.
Qed.

(** ** Distinct colours *)




Lemma as_rgb_wf `{PIL} (image : Image) :
  convert_law -> wf_image image = true ->
  mode (as_rgb image) = "RGB"%string
  /\ Forall (fun px => List.length px = 3%nat) (getdata (as_rgb image))
  /\ pixel_count (as_rgb image) = pixel_count image.
Proof.
  intros Hc Hwf.
  assert (Hrgb : mode (as_rgb image) = "RGB"%string
                 /\ wf_image (as_rgb image) = true
                 /\ pixel_count (as_rgb image) = pixel_count image).
  { unfold as_rgb. destruct (String.eqb (mode image) "RGB") eqn:E; cbn [negb].
    - apply String.eqb_eq in E. auto.
    - apply Hc, Hwf. }
  destruct Hrgb as (Hm & Hw & Hn). split; [exact Hm|]. split; [|exact Hn].
  unfold wf_image in Hw. rewrite Hm in Hw. rewrite forallb_forall in Hw.
  rewrite Forall_forall. intros px Hpx. now apply Nat.eqb_eq, Hw.
Qed.


(** ** The palette: order, populations, number of entries *)

Section PaletteClaims.
Context `{PIL} `{Sklearn}.
Variables (image : Image) (num_colors : Z).

(** C5 (amended).  The centres come out by population, largest first.
    Clusters of equal population keep the order in which their labels
    first occur among the pixel assignments (the insertion order of the
    counter), not the order of the library's centres. *)
Theorem get_dominant_colors_order (cols : list (list Z)) :
  get_dominant_colors image num_colors = Return cols ->
  exists vars : locals,
    cluster_pixels image num_colors = Return vars
    /\ cols = astype_int (map (fun i => nth i (colors vars) []) (ranking vars))
    /\ Permutation (ranking vars) (first_seen (labels vars))
    /\ StronglySorted
         (fun i j => population (labels vars) j <= population (labels vars) i)
         (ranking vars)
    /\ forall n : Z,
        filter (fun i => population (labels vars) i =? n) (ranking vars)
        = filter (fun i => population (labels vars) i =? n) (first_seen (labels vars)).
Proof.
  intros Hrun.
  apply get_dominant_colors_Return in Hrun as (vars & Hvars & _ & Hcols).
  exists vars. split; [exact Hvars|]. split; [exact Hcols|].
  apply cluster_pixels_Return in Hvars as (m & _ & _ & _ & _ & Hcounts).
  now apply ranking_of_labels.
Qed.


End PaletteClaims.

(** The run of [get_dominant_colors] on the 2x2 image, with two clusters. *)
Lemma two_by_two_run :
  cluster_pixels (H := Ref.pil) (H0 := Ref.sklearn) two_by_two 2 = Return two_by_two_locals
  /\ get_dominant_colors (H := Ref.pil) (H0 := Ref.sklearn) two_by_two 2
     = Return [[255; 0; 0]; [0; 0; 255]].
Proof. split; vm_compute; reflexivity. Qed.

(** On the 2x2 image both clusters hold two pixels; red, whose label occurs
    first, comes first. *)
Lemma get_dominant_colors_order_witness :
  get_dominant_colors (H := Ref.pil) (H0 := Ref.sklearn) two_by_two 2
  = Return [[255; 0; 0]; [0; 0; 255]]
  /\ exists vars : locals,
      cluster_pixels (H := Ref.pil) (H0 := Ref.sklearn) two_by_two 2 = Return vars
      /\ [[255; 0; 0]; [0; 0; 255]]
         = astype_int (map (fun i => nth i (colors vars) []) (ranking vars))
      /\ Permutation (ranking vars) (first_seen (labels vars))
      /\ StronglySorted
           (fun i j => population (labels vars) j <= population (labels vars) i)
           (ranking vars)
      /\ forall n : Z,
          filter (fun i => population (labels vars) i =? n) (ranking vars)
          = filter (fun i => population (labels vars) i =? n) (first_seen (labels vars)).
Proof.
  split; [exact (proj2 two_by_two_run)|].
  exact (get_dominant_colors_order (H := Ref.pil) (H0 := Ref.sklearn)
           two_by_two 2 _ (proj2 two_by_two_run)).
Defined.

(** C5, as stated, fails: on the 2x2 image the two clusters tie with two
    pixels each; the centres are (blue, red) in the library's order, and the
    function returns (red, blue), the order in which the labels first
    occur. *)
Lemma ties_follow_first_occurrence_not_centers :
  cluster_pixels (H := Ref.pil) (H0 := Ref.sklearn) two_by_two 2 = Return two_by_two_locals
  /\ astype_int (colors two_by_two_locals) = [[0; 0; 255]; [255; 0; 0]]
  /\ ranking two_by_two_locals = [1; 0]%nat
  /\ population (labels two_by_two_locals) 1 = population (labels two_by_two_locals) 0
  /\ get_dominant_colors (H := Ref.pil) (H0 := Ref.sklearn) two_by_two 2
     = Return [[255; 0; 0]; [0; 0; 255]]
  /\ ~ ties_keep_center_order (labels two_by_two_locals) (ranking two_by_two_locals).
Proof.
  split; [exact (proj1 two_by_two_run)|].
  split; [reflexivity|]. split; [reflexivity|]. split; [reflexivity|].
  split; [exact (proj2 two_by_two_run)|].
  intros Hties.
  specialize (Hties 0%nat 1%nat 1%nat 0%nat ltac:(lia) eq_refl eq_refl eq_refl).
  lia.
Qed.




(** ** [calculate_wcss] *)

Lemma range_length lo hi : List.length (range lo hi) = Z.to_nat (hi - lo).
Proof. unfold range. now rewrite length_map, length_seq. Qed.

Lemma range_In lo hi z : In z (range lo hi) <-> lo <= z < hi.
Proof.
  unfold range. rewrite in_map_iff. split.
  - intros (i & <- & Hi). apply in_seq in Hi. lia.
  - intros Hz. exists (Z.to_nat (z - lo)). split; [lia|]. apply in_seq. lia.
Qed.

Lemma range_nth lo hi (i : nat) :
  (i < Z.to_nat (hi - lo))%nat -> nth_error (range lo hi) i = Some (lo + Z.of_nat i).
Proof.
  intros Hi. unfold range.
  rewrite nth_error_map, nth_error_seq.
  destruct (Nat.ltb_spec i (Z.to_nat (hi - lo))) as [_|Hge]; [reflexivity | lia].
Qed.

Lemma range_empty lo hi : hi <= lo -> range lo hi = [].
Proof.
  intros H. unfold range. replace (Z.to_nat (hi - lo)) with 0%nat by lia. reflexivity.
Qed.

Lemma fancy_index_in_range {A : Type} (a : list A) (indices : list nat) (d : A) :
  Forall (fun i => Z.of_nat i < len a) indices ->
  fancy_index a indices = Return (map (fun i => nth i a d) indices).
Proof.
  intros H. unfold fancy_index. apply mapM_total.
  rewrite Forall_forall in *. intros i Hi. apply getitem_in_range.
  specialize (H i Hi). unfold len in H. lia.
Qed.

Section CostCurve.
Context `{Numpy} `{Sklearn}.

(** The loop appends the inertias of the fits, or stops at the first fit
    that raises; it leaves the generator alone. *)
Lemma wcss_loop (sample : list point) (ks : list Z) :
  forall (wcss : list Q) (g : generator),
    for_ ks
      (fun wcss i =>
         let kmeans := {| n_clusters := i; random_state := 42; n_init := 10 |} in
         fitted <- lift (fit kmeans sample) ;;
         ret (wcss ++ [inertia_ fitted]))
      wcss g
    = (match mapM (inertia_of_fit sample) ks with
       | Return costs => Return (wcss ++ costs)
       | Raise e => Raise e
       end, g).
Proof.
  induction ks as [|k ks IH]; intros wcss g.
  - cbn. now rewrite app_nil_r.
  - cbn [for_ mapM]. unfold inertia_of_fit at 1. cbn [bind Monad_io Monad_outcome ret lift].
    destruct (fit _ sample) as [m|e]; [|reflexivity].
    rewrite IH.
    destruct (mapM (inertia_of_fit sample) ks) as [costs|e]; [|reflexivity].
    now rewrite <- app_assoc.
Qed.

Lemma calculate_wcss_run (pixels : list point) (max_k : Z) (g : generator) :
  calculate_wcss pixels max_k g
  = match random_choice (len pixels) (Z.min (len pixels) 100000) false g with
    | (Return indices, g') =>
        (match fancy_index pixels indices with
         | Return sample => mapM (inertia_of_fit sample) (range 1 (max_k + 1))
         | Raise e => Raise e
         end, g')
    | (Raise e, g') => (Raise e, g')
    end.
Proof.
  unfold calculate_wcss. cbn [bind Monad_io lift].
  destruct (random_choice _ _ _ g) as [[indices|e] g']; [|reflexivity].
  destruct (fancy_index pixels indices) as [sample|e]; [|reflexivity].
  etransitivity; [exact (wcss_loop sample (range 1 (max_k + 1)) [] g')|].
  cbn [app]. destruct (mapM _ _); reflexivity.
Qed.
End CostCurve.

Lemma mapM_length {A B : Type} (f : A -> outcome B) (l : list A) (bs : list B) :
  mapM f l = Return bs -> List.length bs = List.length l.
Proof.
  intros E. apply mapM_Return in E. induction E; simpl; congruence.
Qed.

Lemma mapM_nth {A B : Type} (f : A -> outcome B) (l : list A) (bs : list B) :
  mapM f l = Return bs ->
  forall (i : nat) (a : A),
    nth_error l i = Some a -> exists b, f a = Return b /\ nth_error bs i = Some b.
Proof.
  intros E. apply mapM_Return in E.
  induction E as [|a' b' l bs Hab _ IH]; intros i a Hi.
  - destruct i; discriminate.
  - destruct i as [|i]; cbn in *.
    + injection Hi as <-. eauto.
    + eauto.
Qed.

Lemma mapM_all_Return {A B : Type} (f : A -> outcome B) (l : list A) :
  (forall a, In a l -> exists b, f a = Return b) -> exists bs, mapM f l = Return bs.
Proof.
  induction l as [|a l IH]; intros Hall.
  - exists []. reflexivity.
  - destruct (Hall a (or_introl eq_refl)) as [b Hb].
    destruct IH as [bs Hbs]; [intros; apply Hall; now right|].
    exists (b :: bs). cbn. now rewrite Hb, Hbs.
Qed.

Lemma mapM_first_Raise {A B : Type} (f : A -> outcome B) (l : list A) :
  (exists a, In a l /\ exists e, f a = Raise e) ->
  exists a e, In a l /\ f a = Raise e /\ mapM f l = Raise e.
Proof.
  induction l as [|a l IH]; intros (a0 & Hin & e0 & He0); [destruct Hin|].
  destruct (f a) as [b|e] eqn:Ea.
  - destruct Hin as [->|Hin]; [congruence|].
    destruct IH as (a' & e' & Hin' & Ha' & Hm); [eauto|].
    exists a', e'. cbn. rewrite Ea, Hm. auto.
  - exists a, e. cbn. rewrite Ea. auto.
Qed.

Section CostCurveClaims.
Context `{Numpy} `{Sklearn}.
Variables (pixels : list point) (max_k : Z) (g : generator).

(** C4 (amended).  When the pixel set has at least [max_k] pixels (and
    [max_k] is between 1 and the sample bound 100000), [calculate_wcss]
    returns exactly [max_k] costs in ascending order of k; the i-th one is
    the inertia of the fit with k = i clusters on the sample, the rows of
    the pixel matrix at the indices drawn from numpy's generator.  When
    [max_k] exceeds the size of the sample, a fit is asked for more
    clusters than there are samples, raises [ValueError], and
    [calculate_wcss] fails with it. *)
Theorem calculate_wcss_curve :
  choice_law -> fit_law ->
  (1 <= max_k <= Z.min (len pixels) 100000 ->
   exists (indices : list nat) (sample : list point) (curve : list Q) (g' : generator),
     random_choice (len pixels) (Z.min (len pixels) 100000) false g = (Return indices, g')
     /\ fancy_index pixels indices = Return sample
     /\ len sample = Z.min (len pixels) 100000
     /\ calculate_wcss pixels max_k g = (Return curve, g')
     /\ len curve = max_k
     /\ forall k : Z,
         1 <= k <= max_k ->
         exists fitted : FittedKMeans,
           fit {| n_clusters := k; random_state := 42; n_init := 10 |} sample = Return fitted
           /\ nth_error curve (Z.to_nat (k - 1)) = Some (inertia_ fitted))
  /\ (Z.min (len pixels) 100000 < max_k ->
      exists (e : exn) (g' : generator),
        calculate_wcss pixels max_k g = (Raise e, g')
        /\ exn_type e = "ValueError"%string).
Proof.
  intros Hchoice Hfit.
  destruct (Hchoice (len pixels) (Z.min (len pixels) 100000) g ltac:(unfold len; lia))
    as (indices & g' & Hdraw & Hlen & Hrange).
  pose proof (fancy_index_in_range pixels indices [] Hrange) as Hsample.
  set (sample := map (fun i => nth i pixels []) indices) in *.
  assert (Hsize : len sample = Z.min (len pixels) 100000).
  { unfold sample, len. rewrite length_map. exact Hlen. }
  split; intros Hk.
  - destruct (mapM_all_Return (inertia_of_fit sample) (range 1 (max_k + 1))) as [curve Hcurve].
    { intros k Hin. apply range_In in Hin.
      destruct (Hfit {| n_clusters := k; random_state := 42; n_init := 10 |} sample)
        as [_ Hok].
      destruct (Hok ltac:(cbn; lia)) as [m Hm].
      exists (inertia_ m). unfold inertia_of_fit. now rewrite Hm. }
    exists indices, sample, curve, g'.
    split; [exact Hdraw|]. split; [exact Hsample|]. split; [exact Hsize|].
    split; [rewrite calculate_wcss_run, Hdraw, Hsample; now rewrite Hcurve|].
    split.
    + unfold len. rewrite (mapM_length _ _ _ Hcurve), range_length. lia.
    + intros k Hkk.
      destruct (mapM_nth _ _ _ Hcurve (Z.to_nat (k - 1)) k) as (c & Hc & Hnth).
      { rewrite range_nth by lia. f_equal. lia. }
      unfold inertia_of_fit in Hc. cbn [bind Monad_outcome ret] in Hc.
      destruct (fit _ sample) as [m|e]; [|discriminate].
      injection Hc as <-. exists m. split; [reflexivity | exact Hnth].
  - assert (Hn : 0 <= len sample) by (unfold len; lia).
    destruct (mapM_first_Raise (inertia_of_fit sample) (range 1 (max_k + 1)))
      as (k & e & Hin & Hk_raises & Hm).
    { exists (len sample + 1). split; [apply range_In; lia|].
      destruct (Hfit {| n_clusters := len sample + 1; random_state := 42; n_init := 10 |}
                  sample) as [Hfew _].
      destruct (Hfew ltac:(cbn; lia)) as (e & He & _).
      exists e. unfold inertia_of_fit. now rewrite He. }
    exists e, g'. split; [rewrite calculate_wcss_run, Hdraw, Hsample; now rewrite Hm|].
    apply range_In in Hin.
    destruct (Hfit {| n_clusters := k; random_state := 42; n_init := 10 |} sample)
      as [Hfew Hok].
    unfold inertia_of_fit in Hk_raises. cbn [bind Monad_outcome ret] in Hk_raises.
    destruct (Z_lt_le_dec (len sample) k) as [Hlt|Hle].
    + destruct (Hfew ltac:(cbn; lia)) as (e' & He' & Hty).
      rewrite He' in Hk_raises. now injection Hk_raises as <-.
    + destruct (Hok ltac:(cbn; lia)) as [m Hm'].
      rewrite Hm' in Hk_raises. discriminate.
Qed.
End CostCurveClaims.

Lemma range_cons lo hi : lo < hi -> range lo hi = lo :: range (lo + 1) hi.
Proof.
  intros H. unfold range.
  replace (Z.to_nat (hi - lo)) with (S (Z.to_nat (hi - (lo + 1)))) by lia.
  cbn [seq map]. f_equal; [lia|].
  rewrite <- seq_shift, map_map. apply map_ext. intros i. lia.
Qed.

Section Validation.
Context `{PIL} `{Numpy} `{Sklearn}.
Variables (pixels : list point) (max_k : Z) (g : generator).
Variables (image : Image) (num_colors : Z).

(** C9 (amended).  [calculate_wcss] with [max_k < 1] fits nothing and
    returns the empty curve, for every pixel set, the empty one included;
    when it fails, the exception is the one a fit on the sample raised, and
    on an empty pixel set with [max_k >= 1] that is the [ValueError] of the
    first fit.  [get_dominant_colors] hands [num_colors] and the pixel
    matrix to the fit as they are, and fails exactly when the fit raises,
    with the exception of the fit: [InvalidParameterError] when
    [num_colors < 1], and [ValueError] when the image has fewer pixels than
    [num_colors], in particular when it has no pixel and [num_colors >= 1]. *)
Theorem no_validation :
  choice_law -> fit_law -> invalid_parameter_law -> convert_law -> predict_law ->
  wf_image image = true ->
  (exists (indices : list nat) (sample : list point) (g' : generator),
      random_choice (len pixels) (Z.min (len pixels) 100000) false g = (Return indices, g')
      /\ fancy_index pixels indices = Return sample
      /\ (max_k < 1 -> calculate_wcss pixels max_k g = (Return [], g'))
      /\ (forall (e : exn) (g'' : generator),
             calculate_wcss pixels max_k g = (Raise e, g'') ->
             exists k : Z,
               1 <= k <= max_k
               /\ fit {| n_clusters := k; random_state := 42; n_init := 10 |} sample
                  = Raise e)
      /\ (pixels = [] -> 1 <= max_k ->
          exists e : exn,
            calculate_wcss pixels max_k g = (Raise e, g')
            /\ exn_type e = "ValueError"%string))
  /\ (exists X : list point,
         pixel_matrix image = Return X
         /\ len X = pixel_count image
         /\ (forall e : exn,
                get_dominant_colors image num_colors = Raise e
                <-> fit {| n_clusters := num_colors; random_state := 42; n_init := 10 |} X
                    = Raise e)
         /\ (num_colors < 1 ->
             exists e : exn,
               get_dominant_colors image num_colors = Raise e
               /\ exn_type e = "InvalidParameterError"%string)
         /\ (pixel_count image < num_colors ->
             exists e : exn,
               get_dominant_colors image num_colors = Raise e
               /\ exn_type e = "ValueError"%string)
         /\ (pixel_count image = 0 -> 1 <= num_colors ->
             exists e : exn,
               get_dominant_colors image num_colors = Raise e
               /\ exn_type e = "ValueError"%string)).
Proof.
  intros Hchoice Hfitlaw Hparams Hconv Hpred Hwf. split.
  - destruct (Hchoice (len pixels) (Z.min (len pixels) 100000) g ltac:(unfold len; lia))
      as (indices & g' & Hdraw & Hlen & Hrange).
    pose proof (fancy_index_in_range pixels indices [] Hrange) as Hsample.
    exists indices, (map (fun i => nth i pixels []) indices), g'.
    split; [exact Hdraw|]. split; [exact Hsample|].
    rewrite calculate_wcss_run, Hdraw, Hsample. split; [|split].
    + intros Hk. now rewrite range_empty by lia.
    + intros e g'' Hrun.
      destruct (mapM _ (range 1 (max_k + 1))) as [curve|e'] eqn:Hm; [discriminate|].
      injection Hrun as -> _.
      apply mapM_Raise in Hm as (k & Hin & Hk). apply range_In in Hin.
      exists k. split; [lia|].
      unfold inertia_of_fit in Hk. cbn [bind Monad_outcome ret] in Hk.
      destruct (fit _ _) as [m|e']; [discriminate|].
      injection Hk as ->. reflexivity.
    + intros Hempty Hk. subst pixels.
      assert (indices = []) as ->.
      { destruct indices; [reflexivity|]. unfold len in Hlen. simpl in Hlen. lia. }
      cbn [map]. rewrite range_cons by lia. cbn [mapM]. unfold inertia_of_fit at 1.
      destruct (Hfitlaw {| n_clusters := 1; random_state := 42; n_init := 10 |} [])
        as [Hfew _].
      destruct (Hfew ltac:(cbn; lia)) as (e & Hfit & He).
      rewrite Hfit. exists e. split; [reflexivity | exact He].
  - destruct (pixel_matrix_rows image Hconv Hwf) as [Hrows Hlen].
    eexists. split; [exact Hrows|]. split; [exact Hlen|].
    assert (Hiff : forall e : exn,
               get_dominant_colors image num_colors = Raise e
               <-> fit {| n_clusters := num_colors; random_state := 42; n_init := 10 |}
                     (float32 (getdata (as_rgb image)))
                   = Raise e).
    { intros e. unfold get_dominant_colors, cluster_pixels. rewrite Hrows.
      cbn [bind Monad_outcome ret].
      destruct (fit _ _) as [m|e'] eqn:Hfit.
      + split; [|discriminate]. intros Hrun. exfalso.
        cbn [colors label_counts] in Hrun.
        destruct (mapM _ (most_common _)) as [sorted|e''] eqn:Hm; [discriminate|].
        apply mapM_Raise in Hm as ([i n] & Hin & Hget).
        destruct (Hpred _ _ _ Hfit) as [_ Hp].
        match type of Hin with
        | In _ (most_common (Counter (predict m ?X))) => destruct (Hp X) as [_ Hr]
        end.
        apply (Permutation_in _ (most_common_perm _)) in Hin.
        rewrite Counter_spec in Hin. apply in_map_iff in Hin as (l & E & Hl).
        injection E as -> _. apply (proj1 (first_seen_In _ _)) in Hl.
        rewrite Forall_forall in Hr. specialize (Hr _ Hl).
        pose proof (getitem_in_range (cluster_centers_ m) i ([] : point) Hr) as Hg.
        congruence.
      + split; intros E; injection E as ->; reflexivity. }
    split; [exact Hiff|].
    assert (Hfails : pixel_count image < num_colors ->
              exists e : exn,
                get_dominant_colors image num_colors = Raise e
                /\ exn_type e = "ValueError"%string).
    { intros Hk.
      destruct (Hfitlaw {| n_clusters := num_colors; random_state := 42; n_init := 10 |}
                  (float32 (getdata (as_rgb image))))
        as [Hfew _].
      destruct (Hfew ltac:(cbn; lia)) as (e & Hfit & He).
      exists e. split; [apply Hiff; exact Hfit | exact He]. }
    split; [|split; [exact Hfails|]].
    + intros Hk.
      destruct (Hparams {| n_clusters := num_colors; random_state := 42; n_init := 10 |}
                  (float32 (getdata (as_rgb image))) Hk)
        as (e & Hfit & He).
      exists e. split; [apply Hiff; exact Hfit | exact He].
    + intros Hzero Hk. apply Hfails. lia.
Qed.
End Validation.

(** C4, as stated, fails: a pixel set of one pixel and [max_k = 2]; the
    second fit is asked for two clusters on one sample and raises. *)
Lemma calculate_wcss_raises_on_one_pixel :
  len [black] = 1
  /\ calculate_wcss (H := Ref.numpy) (H0 := Ref.sklearn) [black] 2 0
     = (Raise (ValueError "n_samples should be >= n_clusters"), Ref.next 0).
Proof. split; vm_compute; reflexivity. Qed.

(** The 2x2 image, whose four pixels allow four fits, and the single pixel,
    which does not allow two. *)
Lemma calculate_wcss_curve_witness :
  (1 <= 4 <= Z.min (len (pixels two_by_two_locals)) 100000)
  /\ (exists (indices : list nat) (sample : list point) (curve : list Q) (g' : Z),
         Ref.random_choice (len (pixels two_by_two_locals))
           (Z.min (len (pixels two_by_two_locals)) 100000) false 0 = (Return indices, g')
         /\ fancy_index (pixels two_by_two_locals) indices = Return sample
         /\ len sample = Z.min (len (pixels two_by_two_locals)) 100000
         /\ calculate_wcss (H := Ref.numpy) (H0 := Ref.sklearn) (pixels two_by_two_locals) 4 0
            = (Return curve, g')
         /\ len curve = 4
         /\ forall k : Z,
             1 <= k <= 4 ->
             exists fitted : FittedKMeans,
               Ref.fit {| n_clusters := k; random_state := 42; n_init := 10 |} sample
               = Return fitted
               /\ nth_error curve (Z.to_nat (k - 1)) = Some (inertia_ fitted))
  /\ Z.min (len [black]) 100000 < 2
  /\ (exists (e : exn) (g' : Z),
         calculate_wcss (H := Ref.numpy) (H0 := Ref.sklearn) [black] 2 0 = (Raise e, g')
         /\ exn_type e = "ValueError"%string).
Proof.
  assert (Hk : 1 <= 4 <= Z.min (len (pixels two_by_two_locals)) 100000)
    by (vm_compute; split; discriminate).
  assert (Hf : Z.min (len [black]) 100000 < 2) by reflexivity.
  split; [exact Hk|]. split.
  - exact (proj1 (calculate_wcss_curve (H := Ref.numpy) (H0 := Ref.sklearn)
                    (pixels two_by_two_locals) 4 0 ref_choice_law ref_fit_law) Hk).
  - split; [exact Hf|].
    exact (proj2 (calculate_wcss_curve (H := Ref.numpy) (H0 := Ref.sklearn)
                    [black] 2 0 ref_choice_law ref_fit_law) Hf).
Defined.

(** C9, as stated, fails: with [max_k = 0] [calculate_wcss] returns the
    empty curve, on one pixel and on no pixel at all, and does not fail;
    and on an image of no pixel [get_dominant_colors] fails with the
    [ValueError] of the fit. *)
Lemma calculate_wcss_accepts_max_k_0 :
  calculate_wcss (H := Ref.numpy) (H0 := Ref.sklearn) [black] 0 0 = (Return [], Ref.next 0)
  /\ ~ fails_with (fst (calculate_wcss (H := Ref.numpy) (H0 := Ref.sklearn) [black] 0 0))
       "InvalidParameterError"
  /\ calculate_wcss (H := Ref.numpy) (H0 := Ref.sklearn) [] 0 0 = (Return [], Ref.next 0)
  /\ ~ fails_with (fst (calculate_wcss (H := Ref.numpy) (H0 := Ref.sklearn) [] 0 0))
       "InsufficientDataError"
  /\ get_dominant_colors (H := Ref.pil) (H0 := Ref.sklearn) no_pixels 1
     = Raise (ValueError "Found array with 0 sample(s) while a minimum of 1 is required by KMeans")
  /\ ~ fails_with (get_dominant_colors (H := Ref.pil) (H0 := Ref.sklearn) no_pixels 1)
       "InsufficientDataError".
Proof.
  repeat split; try (vm_compute; reflexivity);
    intros (e & E & He); vm_compute in E; try discriminate E;
    injection E as <-; discriminate He.
Qed.

(** No cluster asked for: [calculate_wcss] returns the empty curve, and
    [get_dominant_colors] fails with the [InvalidParameterError] of the fit;
    one cluster asked for on an image of no pixel: [ValueError]. *)
Lemma no_validation_witness :
  wf_image one_pixel = true
  /\ 0 < 1
  /\ calculate_wcss (H := Ref.numpy) (H0 := Ref.sklearn) [black] 0 0
     = (Return [], Ref.next 0)
  /\ (exists e : exn,
         get_dominant_colors (H := Ref.pil) (H0 := Ref.sklearn) one_pixel 0 = Raise e
         /\ exn_type e = "InvalidParameterError"%string)
  /\ wf_image no_pixels = true
  /\ pixel_count no_pixels = 0
  /\ 1 <= 1
  /\ (exists e : exn,
         get_dominant_colors (H := Ref.pil) (H0 := Ref.sklearn) no_pixels 1 = Raise e
         /\ exn_type e = "ValueError"%string).
Proof.
  destruct (no_validation (H := Ref.pil) (H0 := Ref.numpy) (H1 := Ref.sklearn)
              [black] 0 0 one_pixel 0
              ref_choice_law ref_fit_law ref_invalid_parameter_law ref_convert_law
              ref_predict_law eq_refl)
    as [(indices & sample & g' & Hdraw & _ & Hempty & _) (X & _ & _ & _ & Hinvalid & _)].
  destruct (no_validation (H := Ref.pil) (H0 := Ref.numpy) (H1 := Ref.sklearn)
              [black] 0 0 no_pixels 1
              ref_choice_law ref_fit_law ref_invalid_parameter_law ref_convert_law
              ref_predict_law eq_refl)
    as [_ (X' & _ & _ & _ & _ & _ & Hzero)].
  assert (Hk : 0 < 1) by reflexivity.
  assert (Hone : 1 <= 1) by lia.
  split; [reflexivity|]. split; [exact Hk|]. split.
  { rewrite (Hempty Hk). f_equal.
    vm_compute in Hdraw. now injection Hdraw as _ <-. }
  split; [exact (Hinvalid Hk)|].
  split; [reflexivity|]. split; [reflexivity|]. split; [exact Hone|].
  exact (Hzero eq_refl Hone).
Defined.

(** ** The sample depends on numpy's generator *)

Lemma seq_add_map (n : nat) : forall s t : nat,
  map (fun i => (s + i)%nat) (seq t n) = seq (s + t) n.
Proof.
  induction n as [|n IH]; intros s t; [reflexivity|].
  cbn [seq map]. rewrite IH. now rewrite Nat.add_succ_r.
Qed.

(** While the window does not wrap around, the reference generator in state
    [g] draws the indices [g, g+1, ...]. *)
Lemma ref_choice_window (a size g : Z) :
  0 <= g -> 0 <= size -> g + size <= a ->
  Ref.random_choice a size false g
  = (Return (seq (Z.to_nat g) (Z.to_nat size)), Ref.next g).
Proof.
  intros Hg Hs Ha. unfold Ref.random_choice.
  destruct (size <? 0) eqn:E1; [apply Z.ltb_lt in E1; lia|].
  assert (E2 : (a <=? 0) && negb (size =? 0) = false).
  { destruct (a <=? 0) eqn:Ea; [|reflexivity]. apply Z.leb_le in Ea.
    assert (size = 0) as -> by lia. reflexivity. }
  rewrite E2.
  destruct (a <? size) eqn:E3; [apply Z.ltb_lt in E3; lia|]. cbn [negb andb].
  f_equal. f_equal.
  pose proof (seq_add_map (Z.to_nat size) (Z.to_nat g) 0) as Hseq.
  rewrite Nat.add_0_r in Hseq. rewrite <- Hseq.
  apply map_ext_in. intros i Hi. apply in_seq in Hi.
  rewrite Z.mod_small by lia. lia.
Qed.

Lemma skipn_cons_nth {A : Type} (l : list A) : forall s : nat,
  (s < List.length l)%nat ->
  exists x, nth_error l s = Some x /\ skipn s l = x :: skipn (S s) l.
Proof.
  induction l as [|y l IH]; intros s Hs; [simpl in Hs; lia|].
  destruct s as [|s].
  - exists y. split; reflexivity.
  - destruct (IH s) as (x & Hx & Hsk); [simpl in Hs; lia|].
    exists x. split; [exact Hx | exact Hsk].
Qed.

(** Indexing with consecutive indices takes a slice. *)
Lemma fancy_index_seq {A : Type} (a : list A) (n : nat) : forall s : nat,
  (s + n <= List.length a)%nat ->
  fancy_index a (seq s n) = Return (firstn n (skipn s a)).
Proof.
  unfold fancy_index.
  induction n as [|n IH]; intros s Hs; [reflexivity|].
  destruct (skipn_cons_nth a s ltac:(lia)) as (x & Hx & Hsk).
  cbn [seq mapM]. unfold getitem at 1. rewrite Hx.
  cbn [bind Monad_outcome ret]. rewrite IH by lia.
  rewrite Hsk. reflexivity.
Qed.

Lemma white_then_black_len : len white_then_black = 200000.
Proof.
  unfold white_then_black, len. rewrite length_app, !repeat_length. lia.
Qed.

(** On the reference libraries, a run from generator state [g] whose window
    stays inside the matrix fits the slice of 100000 rows that starts at
    row [g]. *)
Lemma calculate_wcss_white_then_black (g : Z) :
  0 <= g <= 100000 ->
  calculate_wcss (H := Ref.numpy) (H0 := Ref.sklearn) white_then_black 1 g
  = (mapM (inertia_of_fit (H := Ref.sklearn)
             (firstn (Z.to_nat 100000) (skipn (Z.to_nat g) white_then_black)))
       (range 1 2),
     Ref.next g).
Proof.
  intros Hg. rewrite calculate_wcss_run, white_then_black_len.
  change (Z.min 200000 100000) with 100000.
  change (@random_choice Ref.numpy 200000 100000 false g)
    with (Ref.random_choice 200000 100000 false g).
  rewrite ref_choice_window by lia.
  rewrite fancy_index_seq; [reflexivity|].
  pose proof white_then_black_len as Hlen. unfold len in Hlen. lia.
Qed.

(** *** The reference fit with one cluster, on a matrix of two colours *)

Lemma Qnorm_int_add (x y : Z) : Ref.Qnorm ((x # 1) + (y # 1))%Q = (x + y) # 1.
Proof.
  unfold Ref.Qnorm, Qplus. cbn [Qnum Qden].
  change (1 * 1)%positive with 1%positive. cbn [Pos.eqb].
  f_equal. lia.
Qed.

Lemma fold_Qnorm_int (y : Z) (n : nat) : forall x : Z,
  fold_left (fun acc d => Ref.Qnorm (acc + d)%Q) (repeat (y # 1) n) (x # 1)
  = (x + Z.of_nat n * y) # 1.
Proof.
  induction n as [|n IH]; intros x.
  - cbn [repeat fold_left]. f_equal. lia.
  - cbn [repeat fold_left]. rewrite Qnorm_int_add, IH. f_equal. lia.
Qed.

Lemma fold_vadd_int (y1 y2 y3 : Z) (n : nat) : forall x1 x2 x3 : Z,
  fold_left Ref.vadd (repeat [y1 # 1; y2 # 1; y3 # 1] n) [x1 # 1; x2 # 1; x3 # 1]
  = [(x1 + Z.of_nat n * y1) # 1; (x2 + Z.of_nat n * y2) # 1; (x3 + Z.of_nat n * y3) # 1].
Proof.
  assert (Hrow : forall a1 a2 a3 b1 b2 b3 : Z,
             a1 = b1 -> a2 = b2 -> a3 = b3 ->
             [a1 # 1; a2 # 1; a3 # 1] = [b1 # 1; b2 # 1; b3 # 1])
    by (intros; subst; reflexivity).
  induction n as [|n IH]; intros x1 x2 x3.
  - cbn [repeat fold_left]. apply Hrow; lia.
  - cbn [repeat fold_left].
    assert (Hstep : Ref.vadd [x1 # 1; x2 # 1; x3 # 1] [y1 # 1; y2 # 1; y3 # 1]
                    = [(x1 + y1) # 1; (x2 + y2) # 1; (x3 + y3) # 1]).
    { unfold Ref.vadd. cbn [combine map fst snd]. now rewrite !Qnorm_int_add. }
    rewrite Hstep, IH. apply Hrow; lia.
Qed.

Lemma ref_members_all (X : list point) :
  Ref.members_of (map (fun _ => 0%nat) X) X 0 = X.
Proof.
  unfold Ref.members_of. induction X as [|p X IH]; [reflexivity|].
  cbn [map combine filter fst snd Nat.eqb]. now rewrite IH.
Qed.

Lemma ref_populated_single (X : list point) (c : point) :
  X <> [] -> Ref.populated [c] X = true.
Proof. destruct X as [|p X]; [congruence | reflexivity]. Qed.

Lemma ref_lloyd_step_single (X : list point) (c : point) :
  Ref.lloyd_step X [c] = [Ref.mean X c].
Proof.
  unfold Ref.lloyd_step. cbn [List.length seq combine map fst snd].
  rewrite (map_ext (Ref.nearest [c]) (fun _ => 0%nat)) by (intros; reflexivity).
  now rewrite ref_members_all.
Qed.

Section TwoColours.
Variables (w b : nat) (m0 y1 y2 : Z).

Let X : list point := repeat white (S w) ++ repeat black b.
Let m : point := [m0 # 1; m0 # 1; m0 # 1].

Hypothesis mean_integral :
  Ref.Qnorm (((255 * Z.of_nat (S w)) # 1) / inject_Z (Z.of_nat (S w + b))) = m0 # 1.
Hypothesis white_cost : Ref.sqdist white m = y1 # 1.
Hypothesis black_cost : Ref.sqdist black m = y2 # 1.

Lemma two_colours_len : len X = Z.of_nat (S w + b).
Proof. unfold X, len. now rewrite length_app, !repeat_length. Qed.

Lemma two_colours_mean (c : point) : Ref.mean X c = m.
Proof.
  unfold X. cbn [repeat app]. unfold Ref.mean.
  change (len (white :: repeat white w ++ repeat black b)) with (len X).
  rewrite two_colours_len, fold_left_app.
  unfold white at 2. unfold black.
  change [255%Q; 255%Q; 255%Q] with [255 # 1; 255 # 1; 255 # 1].
  change (repeat [0%Q; 0%Q; 0%Q] b) with (repeat [0 # 1; 0 # 1; 0 # 1] b).
  unfold white.
  change (repeat [255%Q; 255%Q; 255%Q] w) with (repeat [255 # 1; 255 # 1; 255 # 1] w).
  rewrite !fold_vadd_int.
  replace (255 + Z.of_nat w * 255 + Z.of_nat b * 0) with (255 * Z.of_nat (S w)) by lia.
  cbn [map]. rewrite mean_integral. reflexivity.
Qed.

Lemma two_colours_centers : Ref.lloyd 4 X (Ref.init_centers 1 42 X) = [m].
Proof.
  assert (Hinit : exists c0, Ref.init_centers 1 42 X = [c0]).
  { unfold Ref.init_centers.
    set (s := Z.to_nat (42 mod len X)).
    assert (Hl : List.length (skipn s X ++ firstn s X) = List.length X).
    { rewrite length_app, length_skipn, length_firstn. lia. }
    assert (HX : List.length X = (S w + b)%nat).
    { unfold X. now rewrite length_app, !repeat_length. }
    destruct (skipn s X ++ firstn s X) as [|c0 l]; [simpl in Hl; lia|].
    exists c0. reflexivity. }
  destruct Hinit as [c0 ->].
  cbn [Ref.lloyd]. now rewrite !ref_lloyd_step_single, !two_colours_mean.
Qed.

Lemma two_colours_inertia :
  Ref.inertia X [m] = (Z.of_nat (S w) * y1 + Z.of_nat b * y2) # 1.
Proof.
  unfold Ref.inertia.
  rewrite (map_ext (fun p => Ref.sqdist p (nth (Ref.nearest [m] p) [m] []))
             (fun p => Ref.sqdist p m)) by (intros; reflexivity).
  unfold X. rewrite map_app, !map_repeat, white_cost, black_cost, fold_left_app.
  change 0%Q with (0 # 1). rewrite !fold_Qnorm_int. f_equal; lia.
Qed.

(** The cost for k = 1 of [S w] white rows followed by [b] black rows. *)
Lemma two_colours_fit :
  inertia_of_fit (H := Ref.sklearn) X 1
  = Return ((Z.of_nat (S w) * y1 + Z.of_nat b * y2) # 1).
Proof.
  unfold inertia_of_fit. change (@fit Ref.sklearn) with Ref.fit.
  unfold Ref.fit. cbn [n_clusters random_state].
  change (1 <? 1) with false. cbv iota.
  rewrite two_colours_len.
  destruct (Z.of_nat (S w + b) =? 0) eqn:E0; [apply Z.eqb_eq in E0; lia|].
  destruct (Z.of_nat (S w + b) <? 1) eqn:E1; [apply Z.ltb_lt in E1; lia|].
  change (Z.to_nat 1) with 1%nat. cbv zeta.
  rewrite two_colours_centers, ref_populated_single by discriminate.
  rewrite two_colours_inertia. reflexivity.
Qed.
End TwoColours.

(** A slice of a matrix of two blocks that starts in the first block. *)
Lemma slice_two_blocks {A : Type} (x y : A) (a b s n : nat) :
  (s <= a)%nat -> (a - s <= n)%nat -> (n <= a - s + b)%nat ->
  firstn n (skipn s (repeat x a ++ repeat y b))
  = repeat x (a - s) ++ repeat y (n - (a - s)).
Proof.
  intros Hs Hn Hb.
  assert (Hskip : forall k j, skipn k (repeat x j) = repeat x (j - k)).
  { induction k as [|k IH]; intros j.
    - now rewrite Nat.sub_0_r.
    - destruct j as [|j]; [reflexivity | apply IH]. }
  assert (Hfirst : forall k j, (k <= j)%nat -> firstn k (repeat y j) = repeat y k).
  { induction k as [|k IH]; intros j Hk; [reflexivity|].
    destruct j as [|j]; [lia|]. cbn [repeat firstn]. rewrite IH by lia. reflexivity. }
  rewrite skipn_app, Hskip, repeat_length.
  replace (s - a)%nat with 0%nat by lia. cbn [skipn].
  rewrite firstn_app, repeat_length.
  rewrite firstn_all2 by (rewrite repeat_length; lia).
  rewrite Hfirst by lia. reflexivity.
Qed.

(** C3.  The sample is drawn from numpy's global generator, which
    [calculate_wcss] does not seed (only the fits are seeded, with
    [random_state=42]): the curve depends on the state in which the
    generator happens to be.  On the matrix of 100000 white and 100000 black
    rows, a run that draws the 100000 white rows returns the cost 0 for
    k = 1, and a run that draws 20000 white and 80000 black rows returns
    3121200000. *)
Theorem calculate_wcss_depends_on_generator :
  calculate_wcss (H := Ref.numpy) (H0 := Ref.sklearn) white_then_black 1 0
  = (Return [0 # 1], Ref.next 0)
  /\ calculate_wcss (H := Ref.numpy) (H0 := Ref.sklearn) white_then_black 1 80000
     = (Return [3121200000 # 1], Ref.next 80000)
  /\ fst (calculate_wcss (H := Ref.numpy) (H0 := Ref.sklearn) white_then_black 1 0)
     <> fst (calculate_wcss (H := Ref.numpy) (H0 := Ref.sklearn) white_then_black 1 80000).
Proof.
  assert (H0 : calculate_wcss (H := Ref.numpy) (H0 := Ref.sklearn) white_then_black 1 0
               = (Return [0 # 1], Ref.next 0)).
  { rewrite calculate_wcss_white_then_black by lia.
    unfold white_then_black.
    rewrite slice_two_blocks by lia.
    replace (Z.to_nat 100000 - Z.to_nat 0)%nat with (S (Z.to_nat 99999)) by lia.
    replace (Z.to_nat 100000 - S (Z.to_nat 99999))%nat with 0%nat by lia.
    change (range 1 2) with [1]. cbn [mapM].
    rewrite (two_colours_fit (Z.to_nat 99999) 0 255 0 195075).
    - cbn [bind Monad_outcome ret].
      replace (Z.of_nat (S (Z.to_nat 99999)) * 0 + Z.of_nat 0 * 195075) with 0 by lia.
      reflexivity.
    - replace (Z.of_nat (S (Z.to_nat 99999))) with 100000 by lia.
      replace (Z.of_nat (S (Z.to_nat 99999) + 0)) with 100000 by lia.
      vm_compute. reflexivity.
    - vm_compute. reflexivity.
    - vm_compute. reflexivity. }
  assert (H1 : calculate_wcss (H := Ref.numpy) (H0 := Ref.sklearn) white_then_black 1 80000
               = (Return [3121200000 # 1], Ref.next 80000)).
  { rewrite calculate_wcss_white_then_black by lia.
    unfold white_then_black.
    rewrite slice_two_blocks by lia.
    replace (Z.to_nat 100000 - Z.to_nat 80000)%nat with (S (Z.to_nat 19999)) by lia.
    replace (Z.to_nat 100000 - S (Z.to_nat 19999))%nat with (Z.to_nat 80000) by lia.
    change (range 1 2) with [1]. cbn [mapM].
    rewrite (two_colours_fit (Z.to_nat 19999) (Z.to_nat 80000) 51 124848 7803).
    - cbn [bind Monad_outcome ret].
      replace (Z.of_nat (S (Z.to_nat 19999)) * 124848 + Z.of_nat (Z.to_nat 80000) * 7803)
        with 3121200000 by lia.
      reflexivity.
    - replace (Z.of_nat (S (Z.to_nat 19999))) with 20000 by lia.
      replace (Z.of_nat (S (Z.to_nat 19999) + Z.to_nat 80000)) with 100000 by lia.
      vm_compute. reflexivity.
    - vm_compute. reflexivity.
    - vm_compute. reflexivity. }
  split; [exact H0|]. split; [exact H1|].
  rewrite H0, H1. cbn [fst]. discriminate.
Qed.

(** * Further properties of the functions and of the script *)

(** ** [rgb_to_hex]: failures, alphabet, reading back *)

Lemma rgb_to_hex_inv (rgb : list number) (s : string) :
  rgb_to_hex rgb = Return s ->
  exists c0 c1 c2 rest r g b,
    rgb = c0 :: c1 :: c2 :: rest
    /\ int c0 = Return r /\ int c1 = Return g /\ int c2 = Return b
    /\ s = ("#" ++ format_0x 2 r ++ format_0x 2 g ++ format_0x 2 b)%string.
Proof.
  unfold rgb_to_hex. intros E.
  destruct rgb as [|c0 [|c1 [|c2 rest]]]; cbn in E; try discriminate.
  - destruct (int c0); discriminate.
  - destruct (int c0); [|discriminate]. destruct (int c1); discriminate.
  - destruct (int c0) as [r|] eqn:E0; [|discriminate].
    destruct (int c1) as [g|] eqn:E1; [|discriminate].
    destruct (int c2) as [b|] eqn:E2; [|discriminate].
    injection E as <-. exists c0, c1, c2, rest, r, g, b. auto.
Qed.

Lemma rgb_to_hex_first_three (c0 c1 c2 : number) (rest : list number) :
  rgb_to_hex (c0 :: c1 :: c2 :: rest) = rgb_to_hex [c0; c1; c2].
Proof. reflexivity. Qed.

(** X1.  [rgb_to_hex] returns exactly when the sequence has at least three
    elements and [int] converts the first three (integers and finite
    floats); further elements are ignored; on a shorter sequence of
    convertible elements it raises [IndexError]. *)
Theorem rgb_to_hex_returns_iff (rgb : list number) :
  ((exists s, rgb_to_hex rgb = Return s)
   <-> exists c0 c1 c2 rest,
        rgb = c0 :: c1 :: c2 :: rest
        /\ convertible c0 = true /\ convertible c1 = true /\ convertible c2 = true)
  /\ rgb_to_hex rgb = rgb_to_hex (firstn 3 rgb)
  /\ ((List.length rgb < 3)%nat -> forallb convertible rgb = true ->
      rgb_to_hex rgb = Raise (IndexError "index out of range")).
Proof.
  split; [split|split].
  - intros [s E].
    destruct (rgb_to_hex_inv rgb s E) as (c0 & c1 & c2 & rest & r & g & b & -> & E0 & E1 & E2 & _).
    exists c0, c1, c2, rest. unfold convertible. now rewrite E0, E1, E2.
  - intros (c0 & c1 & c2 & rest & -> & H0 & H1 & H2).
    unfold convertible in H0, H1, H2. unfold rgb_to_hex. cbn.
    destruct (int c0); [|discriminate]. destruct (int c1); [|discriminate].
    destruct (int c2); [|discriminate]. eexists. reflexivity.
  - destruct rgb as [|c0 [|c1 [|c2 rest]]]; reflexivity.
  - intros Hlen Hconv. unfold convertible in Hconv.
    destruct rgb as [|c0 [|c1 [|c2 rest]]]; cbn in Hlen; try lia; cbn in Hconv.
    + reflexivity.
    + unfold rgb_to_hex. cbn. destruct (int c0); [reflexivity | discriminate].
    + unfold rgb_to_hex. cbn. destruct (int c0); [|discriminate].
      destruct (int c1); [reflexivity | discriminate].
Qed.

(** A red and a green channel, and no blue one. *)
Lemma rgb_to_hex_returns_iff_witness :
  (List.length [PyInt 255; PyFloat (Finite (1 # 2))] < 3)%nat
  /\ forallb convertible [PyInt 255; PyFloat (Finite (1 # 2))] = true
  /\ rgb_to_hex [PyInt 255; PyFloat (Finite (1 # 2))] = Raise (IndexError "index out of range").
Proof.
  assert (Hlen : (List.length [PyInt 255; PyFloat (Finite (1 # 2))] < 3)%nat) by (cbn; lia).
  split; [exact Hlen|]. split; [reflexivity|].
  exact (proj2 (proj2 (rgb_to_hex_returns_iff [PyInt 255; PyFloat (Finite (1 # 2))]))
           Hlen eq_refl).
Defined.

Lemma hex_digit_is_code_char (c : ascii) : is_hex_digit c = true -> is_code_char c = true.
Proof. unfold is_code_char. now intros ->. Qed.

Lemma to_hex_aux_chars fuel : forall n acc,
  forallb is_hex_digit (list_ascii_of_string acc) = true ->
  forallb is_hex_digit (list_ascii_of_string (to_hex_aux fuel n acc)) = true.
Proof.
  induction fuel as [|fuel IH]; intros n acc Hacc; [exact Hacc|].
  cbn [to_hex_aux].
  assert (Hacc' : forallb is_hex_digit
                    (list_ascii_of_string (String (hex_digit (n mod 16)) acc)) = true).
  { cbn [list_ascii_of_string forallb]. now rewrite hex_digit_is_hex, Hacc. }
  destruct (n / 16 =? 0); [exact Hacc' | now apply IH].
Qed.

Lemma format_0x_chars (width : nat) (z : Z) :
  forallb is_code_char (list_ascii_of_string (format_0x width z)) = true.
Proof.
  assert (Hhex : forall s, forallb is_hex_digit (list_ascii_of_string s) = true ->
                           forallb is_code_char (list_ascii_of_string s) = true).
  { intros s H. rewrite forallb_forall in *. intros c Hc.
    now apply hex_digit_is_code_char, H. }
  assert (Hzeros : forall n, forallb is_hex_digit (list_ascii_of_string (zeros n)) = true).
  { induction n as [|n IH]; [reflexivity|].
    cbn [zeros list_ascii_of_string forallb]. now rewrite IH. }
  unfold format_0x. rewrite !chars_app, !forallb_app.
  rewrite (Hhex (zeros _)) by apply Hzeros.
  rewrite (Hhex (to_hex _)) by (apply to_hex_aux_chars; reflexivity).
  destruct (z <? 0); reflexivity.
Qed.

(** X2.  Whatever the channels, a code that [rgb_to_hex] returns is a ['#']
    followed by at least six characters, each a lowercase hexadecimal digit
    or a minus sign: it contains no quote, bracket or space, whatever is
    passed. *)
Theorem rgb_to_hex_alphabet (rgb : list number) (s : string) :
  rgb_to_hex rgb = Return s ->
  exists body : string,
    s = String "#" body
    /\ forallb is_code_char (list_ascii_of_string body) = true
    /\ (6 <= String.length body)%nat.
Proof.
  intros E.
  destruct (rgb_to_hex_inv rgb s E) as (c0 & c1 & c2 & rest & r & g & b & _ & _ & _ & _ & ->).
  eexists. split; [reflexivity|]. split.
  - now rewrite !chars_app, !forallb_app, !format_0x_chars.
  - rewrite !string_length_app.
    pose proof (format_02x_length_ge r). pose proof (format_02x_length_ge g).
    pose proof (format_02x_length_ge b). lia.
Qed.

(** Channels far out of range. *)
Lemma rgb_to_hex_alphabet_witness :
  rgb_to_hex [PyInt (-300); PyFloat (Finite (70000 # 3)); PyInt 5]
  = Return "#-12c5b2505"%string
  /\ exists body : string,
      "#-12c5b2505"%string = String "#" body
      /\ forallb is_code_char (list_ascii_of_string body) = true
      /\ (6 <= String.length body)%nat.
Proof.
  assert (E : rgb_to_hex [PyInt (-300); PyFloat (Finite (70000 # 3)); PyInt 5]
              = Return "#-12c5b2505"%string) by (vm_compute; reflexivity).
  split; [exact E|].
  exact (rgb_to_hex_alphabet _ _ E).
Defined.

Lemma hex_digit_value_digit (d : Z) :
  0 <= d < 16 -> hex_digit_value (hex_digit d) = Some d.
Proof.
  intros H.
  assert (Hd : d = 0 \/ d = 1 \/ d = 2 \/ d = 3 \/ d = 4 \/ d = 5 \/ d = 6 \/ d = 7
               \/ d = 8 \/ d = 9 \/ d = 10 \/ d = 11 \/ d = 12 \/ d = 13 \/ d = 14
               \/ d = 15) by lia.
  repeat (destruct Hd as [Hd|Hd]; [subst d; reflexivity|]). subst d; reflexivity.
Qed.

Lemma parse_hex_code_hex_code (r g b : Z) :
  0 <= r <= 255 -> 0 <= g <= 255 -> 0 <= b <= 255 ->
  parse_hex_code (hex_code r g b) = Some (r, g, b).
Proof.
  intros Hr Hg Hb.
  assert (Hdiv : forall z, 0 <= z <= 255 -> 0 <= z / 16 < 16).
  { intros z Hz. split; [apply Z.div_pos; lia | apply Z.div_lt_upper_bound; lia]. }
  assert (Hmod : forall z, 0 <= z mod 16 < 16) by (intros; apply Z.mod_pos_bound; lia).
  unfold hex_code, hex2. cbn [append parse_hex_code].
  rewrite !hex_digit_value_digit by auto.
  rewrite <- !Z.div_mod by lia. reflexivity.
Qed.

(** X3.  On channels in [0,255] the code determines the colour: reading
    its six digits back gives the three channels, so two different colours
    never get the same code. *)
Theorem rgb_to_hex_read_back (r g b : Z) :
  0 <= r <= 255 -> 0 <= g <= 255 -> 0 <= b <= 255 ->
  (exists s : string,
      rgb_to_hex [PyInt r; PyInt g; PyInt b] = Return s
      /\ parse_hex_code s = Some (r, g, b))
  /\ forall r' g' b' : Z,
      0 <= r' <= 255 -> 0 <= g' <= 255 -> 0 <= b' <= 255 ->
      rgb_to_hex [PyInt r'; PyInt g'; PyInt b'] = rgb_to_hex [PyInt r; PyInt g; PyInt b] ->
      (r', g', b') = (r, g, b).
Proof.
  intros Hr Hg Hb. split.
  - exists (hex_code r g b). split; [now apply rgb_to_hex_bytes|].
    now apply parse_hex_code_hex_code.
  - intros r' g' b' Hr' Hg' Hb' E.
    rewrite !rgb_to_hex_bytes in E by assumption.
    assert (E' : parse_hex_code (hex_code r' g' b') = parse_hex_code (hex_code r g b))
      by congruence.
    rewrite !parse_hex_code_hex_code in E' by assumption. congruence.
Qed.

Lemma rgb_to_hex_read_back_witness :
  (0 <= 18 <= 255 /\ 0 <= 171 <= 255 /\ 0 <= 255 <= 255)
  /\ exists s : string,
      rgb_to_hex [PyInt 18; PyInt 171; PyInt 255] = Return s
      /\ parse_hex_code s = Some (18, 171, 255).
Proof.
  assert (H1 : 0 <= 18 <= 255) by lia. assert (H2 : 0 <= 171 <= 255) by lia.
  assert (H3 : 0 <= 255 <= 255) by lia.
  split; [auto|].
  exact (proj1 (rgb_to_hex_read_back 18 171 255 H1 H2 H3)).
Defined.

Lemma returns_hex_color_ints (r g b : Z) :
  returns_hex_color (rgb_to_hex [PyInt r; PyInt g; PyInt b])
  = in_byte_range r && in_byte_range g && in_byte_range b.
Proof.
  rewrite rgb_to_hex_ints. cbn [returns_hex_color].
  destruct (in_byte_range r && in_byte_range g && in_byte_range b) eqn:E.
  - unfold in_byte_range in E.
    apply andb_prop in E as [E Eb]. apply andb_prop in E as [Er Eg].
    rewrite !format_02x_byte by lia. apply hex_code_well_formed.
  - apply not_true_is_false. intros H. cbn [append is_hex_color] in H.
    apply andb_prop in H as [Hlen Hhex]. apply Nat.eqb_eq in Hlen.
    rewrite !string_length_app in Hlen.
    rewrite !chars_app, !forallb_app in Hhex.
    apply andb_prop in Hhex as [Hr Hhex]. apply andb_prop in Hhex as [Hg Hb].
    pose proof (format_02x_length_ge r). pose proof (format_02x_length_ge g).
    pose proof (format_02x_length_ge b).
    pose proof (format_02x_two_hex_digits r ltac:(lia) Hr).
    pose proof (format_02x_two_hex_digits g ltac:(lia) Hg).
    pose proof (format_02x_two_hex_digits b ltac:(lia) Hb).
    unfold in_byte_range in E.
    assert (E' : (0 <=? r) && (r <=? 255) && ((0 <=? g) && (g <=? 255))
                 && ((0 <=? b) && (b <=? 255)) = true).
    { repeat (apply andb_true_intro; split); lia. }
    congruence.
Qed.

Lemma trunc_byte_iff (q : Q) : 0 <= trunc q <= 255 <-> (-1 < q < 256)%Q.
Proof.
  destruct q as [n d]. unfold Qlt, trunc. cbn [Qnum Qden].
  destruct (Z_lt_le_dec n 0) as [Hn|Hn].
  - replace n with (- (- n)) at 1 2 by lia.
    rewrite Z.quot_opp_l by lia. rewrite Z.quot_div_nonneg by lia.
    pose proof (Z.div_pos (- n) (Z.pos d) ltac:(lia) ltac:(lia)) as Hq.
    split.
    + intros [H0 _]. assert (Hz : - n / Z.pos d = 0) by lia.
      apply Z.div_small_iff in Hz; lia.
    + intros [H0 _]. rewrite Z.div_small by lia. lia.
  - rewrite Z.quot_div_nonneg by lia.
    pose proof (Z.div_pos n (Z.pos d) ltac:(lia) ltac:(lia)) as Hq.
    split.
    + intros [_ H1]. split; [lia|].
      pose proof (Z.mul_succ_div_gt n (Z.pos d) ltac:(lia)). nia.
    + intros [_ H1]. split; [lia|].
      assert (H : n / Z.pos d < 256) by (apply Z.div_lt_upper_bound; lia). lia.
Qed.

(** X4.  On finite float channels the result is a well-formed code exactly
    when every channel lies strictly between -1 and 256: the truncation
    toward zero lets the values of (-1, 0) pass as 0 and those of
    (255, 256) as 255. *)
Theorem rgb_to_hex_floats_well_formed_iff (r g b : Q) :
  returns_hex_color (rgb_to_hex [PyFloat (Finite r); PyFloat (Finite g); PyFloat (Finite b)])
  = true
  <-> (-1 < r < 256)%Q /\ (-1 < g < 256)%Q /\ (-1 < b < 256)%Q.
Proof.
  change (rgb_to_hex [PyFloat (Finite r); PyFloat (Finite g); PyFloat (Finite b)])
    with (rgb_to_hex [PyInt (trunc r); PyInt (trunc g); PyInt (trunc b)]).
  rewrite returns_hex_color_ints, <- !trunc_byte_iff. unfold in_byte_range.
  rewrite !andb_true_iff, !Z.leb_le. tauto.
Qed.

(** ** [calculate_wcss]: the sample *)

Lemma map_nth_seq {A : Type} (l : list A) (d : A) :
  map (fun i => nth i l d) (seq 0 (List.length l)) = l.
Proof.
  induction l as [|a l IH]; [reflexivity|].
  cbn [List.length seq map nth]. f_equal.
  rewrite <- seq_shift, map_map. exact IH.
Qed.

Section CostCurveMore.
Context `{Numpy} `{Sklearn}.
Variables (pixels : list point) (g : generator).

(** X6.  The fits run on a sample of min(number of pixels, 100000) rows of
    the pixel matrix.  Up to 100000 pixels no pixel is left out: the sample
    is the whole matrix in the order of the draw. *)
Theorem calculate_wcss_sample (max_k : Z) :
  choice_law -> choice_distinct_law ->
  exists (indices : list nat) (sample : list point) (g' : generator),
    random_choice (len pixels) (Z.min (len pixels) 100000) false g = (Return indices, g')
    /\ fancy_index pixels indices = Return sample
    /\ calculate_wcss pixels max_k g
       = (mapM (inertia_of_fit sample) (range 1 (max_k + 1)), g')
    /\ len sample = Z.min (len pixels) 100000
    /\ incl sample pixels
    /\ (len pixels <= 100000 -> Permutation sample pixels).
Proof.
  intros Hchoice Hdistinct.
  destruct (Hchoice (len pixels) (Z.min (len pixels) 100000) g ltac:(unfold len; lia))
    as (indices & g' & Hdraw & Hlen & Hrange).
  pose proof (fancy_index_in_range pixels indices [] Hrange) as Hsample.
  pose proof (Hdistinct _ _ _ _ _ Hdraw) as Hnodup.
  exists indices, (map (fun i => nth i pixels []) indices), g'.
  split; [exact Hdraw|]. split; [exact Hsample|].
  split; [now rewrite calculate_wcss_run, Hdraw, Hsample|].
  split; [unfold len; rewrite length_map; exact Hlen|].
  rewrite Forall_forall in Hrange. split.
  - intros p Hp. apply in_map_iff in Hp as (i & <- & Hi).
    apply nth_In. specialize (Hrange i Hi). unfold len in Hrange. lia.
  - intros Hsmall.
    assert (Hperm : Permutation indices (seq 0 (List.length pixels))).
    { apply NoDup_Permutation_bis; [exact Hnodup | |].
      - rewrite length_seq. unfold len in *. lia.
      - intros i Hi. apply in_seq. specialize (Hrange i Hi). unfold len in Hrange. lia. }
    apply (Permutation_trans
             (l' := map (fun i => nth i pixels []) (seq 0 (List.length pixels)))).
    + now apply Permutation_map.
    + now rewrite map_nth_seq.
Qed.
End CostCurveMore.

Lemma ref_choice_distinct_law : choice_distinct_law (H := Ref.numpy).
Proof.
  intros a size g g' indices. cbn. unfold Ref.random_choice.
  destruct (size <? 0) eqn:E1; [discriminate|]. apply Z.ltb_ge in E1.
  destruct ((a <=? 0) && negb (size =? 0)) eqn:E2; [discriminate|].
  cbn [negb andb].
  destruct (a <? size) eqn:E3; [discriminate|]. apply Z.ltb_ge in E3.
  intros E. injection E as <- _.
  apply NoDup_map_NoDup_ForallPairs; [|apply seq_NoDup].
  intros i j Hi Hj Hij. apply in_seq in Hi, Hj.
  assert (Ha : 0 < a) by lia.
  pose proof (Z.mod_pos_bound (g + Z.of_nat i) a Ha) as Bi.
  pose proof (Z.mod_pos_bound (g + Z.of_nat j) a Ha) as Bj.
  assert (Hm : (g + Z.of_nat i) mod a = (g + Z.of_nat j) mod a) by lia.
  pose proof (Z.div_mod (g + Z.of_nat i) a ltac:(lia)) as Di.
  pose proof (Z.div_mod (g + Z.of_nat j) a ltac:(lia)) as Dj.
  rewrite Hm in Di.
  assert (Hq : (g + Z.of_nat i) / a = (g + Z.of_nat j) / a) by nia.
  rewrite Hq in Di. lia.
Qed.

(** The four pixels of the 2x2 image are all in the sample. *)
Lemma calculate_wcss_sample_witness :
  len (pixels two_by_two_locals) <= 100000
  /\ exists (indices : list nat) (sample : list point) (g' : Z),
      Ref.random_choice (len (pixels two_by_two_locals))
        (Z.min (len (pixels two_by_two_locals)) 100000) false 1 = (Return indices, g')
      /\ fancy_index (pixels two_by_two_locals) indices = Return sample
      /\ Permutation sample (pixels two_by_two_locals).
Proof.
  assert (Hsmall : len (pixels two_by_two_locals) <= 100000) by (vm_compute; discriminate).
  split; [exact Hsmall|].
  destruct (calculate_wcss_sample (H := Ref.numpy) (H0 := Ref.sklearn)
              (pixels two_by_two_locals) 1 4 ref_choice_law ref_choice_distinct_law)
    as (indices & sample & g' & Hdraw & Hsample & _ & _ & _ & Hperm).
  exists indices, sample, g'. split; [exact Hdraw|]. split; [exact Hsample|].
  exact (Hperm Hsmall).
Defined.

(** ** [find_optimal_k_elbow]: the page, and where the result lies *)

Section ElbowMore.
Context `{Kneed}.
Variables (wcss_values : list Q) (k_range : list Z) (shown : streamlit).

(** X7.  The function keeps what the page showed before and adds one
    warning exactly when the detector raised; when the detector finds no
    knee the fallback to 5 is silent.  The number returned does not depend
    on the page. *)
Theorem find_optimal_k_elbow_page :
  exists (k : Z) (added : list string),
    find_optimal_k_elbow wcss_values k_range shown = (Return k, shown ++ added)
    /\ (added = [] <-> exists kneedle, locate_knee wcss_values k_range = Return kneedle)
    /\ (forall e, locate_knee wcss_values k_range = Raise e -> added = [elbow_warning e])
    /\ fst (find_optimal_k_elbow wcss_values k_range []) = Return k.
Proof.
  rewrite !find_optimal_k_elbow_run.
  destruct (locate_knee wcss_values k_range) as [kneedle|e].
  - exists (match elbow kneedle with Some k => Z.max 2 k | None => 5 end), [].
    rewrite app_nil_r. repeat split; eauto; discriminate.
  - exists 5, [elbow_warning e]. repeat split.
    + discriminate.
    + intros [kneedle E]. discriminate.
    + intros e' E. now injection E as ->.
Qed.

(** X8.  When the knee the detector reports is one of the values of
    [k_range], the function returns a value of [k_range] that is at least
    2, or 2, or 5; if the values of [k_range] do not exceed a bound of at
    least 5, neither does the result. *)
Theorem find_optimal_k_elbow_bounds (hi : Z) :
  knee_law -> 5 <= hi -> (forall x, In x k_range -> x <= hi) ->
  exists (k : Z) (shown' : streamlit),
    find_optimal_k_elbow wcss_values k_range shown = (Return k, shown')
    /\ 2 <= k <= hi
    /\ (In k k_range \/ k = 2 \/ k = 5).
Proof.
  intros Hknee Hhi Hrange. rewrite find_optimal_k_elbow_run.
  destruct (locate_knee wcss_values k_range) as [kneedle|e] eqn:E.
  - destruct (elbow kneedle) as [k|] eqn:Ek.
    + pose proof (Hknee _ _ _ _ _ _ _ _ E Ek) as Hin.
      pose proof (Hrange k Hin) as Hle.
      exists (Z.max 2 k), shown. split; [reflexivity|]. split; [lia|].
      destruct (Z_le_gt_dec k 2) as [Hs|Hb].
      * right. left. lia.
      * left. now rewrite Z.max_r by lia.
    + exists 5, shown. split; [reflexivity|]. split; [lia | auto].
  - exists 5, (shown ++ [elbow_warning e]). split; [reflexivity|]. split; [lia | auto].
Qed.
End ElbowMore.

Lemma ref_knee_law : knee_law (H := Ref.kneed).
Proof.
  intros x y S c d i kneedle k. cbn. unfold Ref.KneeLocator.
  destruct (negb (Nat.eqb (List.length x) (List.length y))); [discriminate|].
  destruct (map inject_Z x) as [|x0 xs]; [discriminate|].
  destruct y as [|y0 ys]; [discriminate|].
  destruct (Qle_bool _ _ || Qle_bool _ _).
  - intros E. injection E as <-. discriminate.
  - destruct (map _ (combine (x0 :: xs) (y0 :: ys))) as [|d0 ds].
    + intros E. injection E as <-. discriminate.
    + intros E. injection E as <-. cbn [elbow]. apply nth_error_In.
Qed.

(** The ten values of k that the script tries, on a curve with a knee. *)
Lemma find_optimal_k_elbow_bounds_witness :
  5 <= 10
  /\ (forall x, In x (range 1 11) -> x <= 10)
  /\ exists (k : Z) (shown' : streamlit),
      find_optimal_k_elbow (H := Ref.kneed)
        [100; 20; 10; 8; 7; 6; 5; 4; 3; 2]%Q (range 1 11) [] = (Return k, shown')
      /\ 2 <= k <= 10
      /\ (In k (range 1 11) \/ k = 2 \/ k = 5).
Proof.
  assert (Hhi : 5 <= 10) by lia.
  assert (Hrange : forall x, In x (range 1 11) -> x <= 10)
    by (intros x Hx; apply range_In in Hx; lia).
  split; [exact Hhi|]. split; [exact Hrange|].
  exact (find_optimal_k_elbow_bounds (H := Ref.kneed)
           [100; 20; 10; 8; 7; 6; 5; 4; 3; 2]%Q (range 1 11) [] 10
           ref_knee_law Hhi Hrange).
Defined.

(** ** The colours of the palette as display codes *)

Lemma float32_color_rows (data : list (list Z)) :
  Forall (fun px => List.length px = 3%nat) data ->
  forallb (forallb in_byte_range) data = true ->
  Forall color_row (float32 data).
Proof.
  intros Hlen Hbytes. unfold float32. rewrite Forall_forall in *.
  rewrite forallb_forall in Hbytes.
  intros p Hp. apply in_map_iff in Hp as (px & <- & Hpx).
  split; [rewrite length_map; now apply Hlen|].
  specialize (Hbytes px Hpx). rewrite forallb_forall in Hbytes.
  rewrite Forall_forall. intros q Hq. apply in_map_iff in Hq as (z & <- & Hz).
  specialize (Hbytes z Hz). unfold in_byte_range in Hbytes.
  apply andb_prop in Hbytes as [H0 H1]. apply Z.leb_le in H0, H1.
  unfold Qle. cbn. lia.
Qed.

Lemma color_row_code (c : point) :
  color_row c ->
  exists r g b : Z,
    map trunc c = [r; g; b]
    /\ 0 <= r <= 255 /\ 0 <= g <= 255 /\ 0 <= b <= 255
    /\ rgb_to_hex (int_row (map trunc c)) = Return (hex_code r g b).
Proof.
  intros [Hlen Hrange].
  destruct c as [|q1 [|q2 [|q3 [|q4 c]]]]; try discriminate.
  inversion Hrange as [|? ? H1 Hr1]; subst. inversion Hr1 as [|? ? H2 Hr2]; subst.
  inversion Hr2 as [|? ? H3 _]; subst.
  pose proof (trunc_byte q1 H1). pose proof (trunc_byte q2 H2).
  pose proof (trunc_byte q3 H3).
  exists (trunc q1), (trunc q2), (trunc q3). repeat split; try lia.
  cbn [map int_row]. now apply rgb_to_hex_bytes.
Qed.

Section PaletteCodes.
Context `{PIL} `{Sklearn}.
Variables (image : Image) (num_colors : Z).

Lemma get_dominant_colors_rows (X : list point) (cols : list (list Z)) :
  centers_law ->
  pixel_matrix image = Return X -> Forall color_row X ->
  get_dominant_colors image num_colors = Return cols ->
  Forall (fun row =>
            exists r g b : Z,
              row = [r; g; b]
              /\ 0 <= r <= 255 /\ 0 <= g <= 255 /\ 0 <= b <= 255
              /\ rgb_to_hex (int_row row) = Return (hex_code r g b))
         cols.
Proof.
  intros Hcenters HX Hrows Hrun.
  apply get_dominant_colors_Return in Hrun as (vars & Hvars & Hrank & ->).
  apply cluster_pixels_Return in Hvars as (m & Hpix & Hfit & Hcol & _ & _).
  rewrite HX in Hpix. injection Hpix as Hpix. rewrite <- Hpix in Hfit.
  pose proof (Hcenters _ _ _ Hfit Hrows) as Hc. rewrite <- Hcol in Hc.
  unfold astype_int. rewrite Forall_forall in *. intros row Hrow.
  apply in_map_iff in Hrow as (c & <- & Hin).
  apply in_map_iff in Hin as (i & <- & Hi).
  assert (Hcr : color_row (nth i (colors vars) [])) by (apply Hc, nth_In, Hrank, Hi).
  destruct (color_row_code _ Hcr) as (r & g & b & E & Hr & Hg & Hb & Hcode).
  exists r, g, b. rewrite <- E at 1. repeat split; try assumption; lia.
Qed.

(** X9.  When the rows of the pixel matrix are colours (three channels in
    [0,255]) and the library's centres of colours are colours, every row
    that [get_dominant_colors] returns is a triple of integers in [0,255],
    and [rgb_to_hex] turns it into a well-formed code. *)
Theorem get_dominant_colors_codes (X : list point) (cols : list (list Z)) :
  centers_law ->
  pixel_matrix image = Return X -> Forall color_row X ->
  get_dominant_colors image num_colors = Return cols ->
  Forall (fun row =>
            exists r g b : Z,
              row = [r; g; b]
              /\ 0 <= r <= 255 /\ 0 <= g <= 255 /\ 0 <= b <= 255
              /\ rgb_to_hex (int_row row) = Return (hex_code r g b)
              /\ is_hex_color (hex_code r g b) = true)
         cols.
Proof.
  intros Hcenters HX Hrows Hrun.
  pose proof (get_dominant_colors_rows X cols Hcenters HX Hrows Hrun) as Hcols.
  rewrite Forall_forall in *. intros row Hrow.
  destruct (Hcols row Hrow) as (r & g & b & E & Hr & Hg & Hb & Hcode).
  exists r, g, b. repeat split; try assumption; try lia.
  apply hex_code_well_formed.
Qed.
End PaletteCodes.

(** *** The reference fit keeps colours colours *)

Lemma ref_vadd_sum_row (count : nat) (a r : point) :
  sum_row count a -> color_row r -> sum_row (S count) (Ref.vadd a r).
Proof.
  intros [La Ha] [Lr Hr].
  destruct a as [|a1 [|a2 [|a3 [|a4 a]]]]; try discriminate.
  destruct r as [|r1 [|r2 [|r3 [|r4 r]]]]; try discriminate.
  split; [reflexivity|].
  assert (Hstep : forall x y : Q,
             (0 <= x <= 255 * inject_Z (Z.of_nat count))%Q -> (0 <= y <= 255)%Q ->
             (0 <= Ref.Qnorm (x + y) <= 255 * inject_Z (Z.of_nat (S count)))%Q).
  { intros x y Hx Hy. rewrite Qnorm_eq, Nat2Z.inj_succ.
    unfold Z.succ. rewrite inject_Z_plus.
    set (c := inject_Z (Z.of_nat count)) in *.
    change (inject_Z 1) with 1%Q. lra. }
  inversion Ha as [|? ? A1 Ha1]; subst. inversion Ha1 as [|? ? A2 Ha2]; subst.
  inversion Ha2 as [|? ? A3 _]; subst.
  inversion Hr as [|? ? R1 Hr1]; subst. inversion Hr1 as [|? ? R2 Hr2]; subst.
  inversion Hr2 as [|? ? R3 _]; subst.
  unfold Ref.vadd. cbn [combine map fst snd].
  repeat constructor; apply Hstep; assumption.
Qed.

Lemma ref_fold_vadd_sum_row (rest : list point) : forall (count : nat) (a : point),
  sum_row count a -> Forall color_row rest ->
  sum_row (count + List.length rest) (fold_left Ref.vadd rest a).
Proof.
  induction rest as [|r rest IH]; intros count a Ha Hrest.
  - now rewrite Nat.add_0_r.
  - inversion Hrest as [|? ? Hr Hrest']; subst. cbn [fold_left List.length].
    rewrite Nat.add_succ_r, <- Nat.add_succ_l.
    apply IH; [now apply ref_vadd_sum_row | assumption].
Qed.

Lemma ref_mean_color_row (members : list point) (default : point) :
  Forall color_row members -> color_row default -> color_row (Ref.mean members default).
Proof.
  intros Hm Hd. destruct members as [|p rest]; [exact Hd|].
  inversion Hm as [|? ? Hp Hrest]; subst. unfold Ref.mean.
  assert (Hp1 : sum_row 1 p).
  { destruct Hp as [Lp Rp]. split; [exact Lp|].
    rewrite Forall_forall in *. intros q Hq. specialize (Rp q Hq).
    change (inject_Z (Z.of_nat 1)) with 1%Q. lra. }
  destruct (ref_fold_vadd_sum_row rest 1 p Hp1 Hrest) as [Ls Rs].
  split; [now rewrite length_map|].
  rewrite Forall_forall in *. intros q Hq. apply in_map_iff in Hq as (x & <- & Hx).
  specialize (Rs x Hx). rewrite Qnorm_eq.
  assert (Hn : len (p :: rest) = Z.of_nat (1 + List.length rest)) by reflexivity.
  rewrite Hn.
  set (n := inject_Z (Z.of_nat (1 + List.length rest))) in *.
  assert (Hpos : (0 < n)%Q).
  { unfold n. rewrite <- (Zlt_Qlt 0). lia. }
  split.
  - apply Qle_shift_div_l; [exact Hpos | lra].
  - apply Qle_shift_div_r; [exact Hpos | lra].
Qed.

Lemma ref_lloyd_step_color_rows (X centers : list point) :
  Forall color_row X -> Forall color_row centers ->
  Forall color_row (Ref.lloyd_step X centers).
Proof.
  intros HX Hc. unfold Ref.lloyd_step. rewrite Forall_forall in *.
  intros c Hin. apply in_map_iff in Hin as ([j c0] & <- & Hjc).
  apply in_combine_r in Hjc. cbn [fst snd].
  apply ref_mean_color_row; [|now apply Hc].
  rewrite Forall_forall. intros p Hp. unfold Ref.members_of in Hp.
  apply in_map_iff in Hp as ([l x] & <- & Hlx). apply filter_In in Hlx as [Hlx _].
  apply in_combine_r in Hlx. now apply HX.
Qed.

Lemma ref_centers_law : centers_law (H := Ref.sklearn).
Proof.
  intros km X m Hfit HX. cbn in Hfit. apply ref_fit_centers in Hfit as [_ ->].
  assert (Hfirst : forall (n : nat) (l : list point) x, In x (firstn n l) -> In x l).
  { induction n as [|n IH]; intros [|y l] x Hx; cbn in Hx; try contradiction.
    destruct Hx as [->|Hx]; [now left | right; now apply IH]. }
  destruct (Ref.populated _ X).
  - assert (Hinit : Forall color_row
                      (Ref.init_centers (Z.to_nat (n_clusters km)) (random_state km) X)).
    { unfold Ref.init_centers. rewrite Forall_forall in *. intros c Hc.
      apply HX.
      assert (Hskip : forall (n : nat) (l : list point) x, In x (skipn n l) -> In x l).
      { induction n as [|n IH]; intros [|y l] x Hx; cbn in Hx; try contradiction;
          try assumption. right. now apply IH. }
      apply Hfirst in Hc. apply in_app_or in Hc as [Hc|Hc]; eauto. }
    set (init := Ref.init_centers _ _ X) in *. clearbody init.
    cbn [Ref.lloyd]. repeat apply ref_lloyd_step_color_rows; assumption.
  - unfold Ref.distinct_start. rewrite Forall_forall in *. intros c Hc.
    apply HX. apply Hfirst in Hc. apply in_app_or in Hc as [Hc|Hc]; [|exact Hc].
    now apply unique_rows_In.
Qed.

(** ** The script *)

Lemma calculate_wcss_too_few `{Numpy} `{Sklearn}
  (pixels : list point) (max_k : Z) (g : generator) :
  choice_law -> fit_law -> Z.min (len pixels) 100000 < max_k ->
  exists (e : exn) (g' : generator),
    calculate_wcss pixels max_k g = (Raise e, g') /\ exn_type e = "ValueError"%string.
Proof.
  intros Hchoice Hfit Hk.
  destruct (Hchoice (len pixels) (Z.min (len pixels) 100000) g ltac:(unfold len; lia))
    as (indices & g' & Hdraw & Hlen & Hrange).
  pose proof (fancy_index_in_range pixels indices [] Hrange) as Hsample.
  set (sample := map (fun i => nth i pixels []) indices) in *.
  assert (Hsize : len sample = Z.min (len pixels) 100000).
  { unfold sample, len. rewrite length_map. exact Hlen. }
  assert (Hn : 0 <= len sample) by (unfold len; lia).
  destruct (mapM_first_Raise (inertia_of_fit sample) (range 1 (max_k + 1)))
    as (k & e & Hin & Hk_raises & Hm).
  { exists (len sample + 1). split; [apply range_In; lia|].
    destruct (Hfit {| n_clusters := len sample + 1; random_state := 42; n_init := 10 |}
                sample) as [Hfew _].
    destruct (Hfew ltac:(cbn; lia)) as (e & He & _).
    exists e. unfold inertia_of_fit. now rewrite He. }
  exists e, g'. split; [rewrite calculate_wcss_run, Hdraw, Hsample; now rewrite Hm|].
  apply range_In in Hin.
  destruct (Hfit {| n_clusters := k; random_state := 42; n_init := 10 |} sample)
    as [Hfew Hok].
  unfold inertia_of_fit in Hk_raises. cbn [bind Monad_outcome ret] in Hk_raises.
  destruct (Z_lt_le_dec (len sample) k) as [Hlt|Hle].
  - destruct (Hfew ltac:(cbn; lia)) as (e' & He' & Hty).
    rewrite He' in Hk_raises. now injection Hk_raises as <-.
  - destruct (Hok ltac:(cbn; lia)) as [m Hm'].
    rewrite Hm' in Hk_raises. discriminate.
Qed.

Lemma calculate_wcss_enough `{Numpy} `{Sklearn}
  (pixels : list point) (max_k : Z) (g : generator) :
  choice_law -> fit_law -> 0 <= max_k <= Z.min (len pixels) 100000 ->
  exists (curve : list Q) (g' : generator),
    calculate_wcss pixels max_k g = (Return curve, g') /\ len curve = max_k.
Proof.
  intros Hchoice Hfit Hk.
  destruct (Hchoice (len pixels) (Z.min (len pixels) 100000) g ltac:(unfold len; lia))
    as (indices & g' & Hdraw & Hlen & Hrange).
  pose proof (fancy_index_in_range pixels indices [] Hrange) as Hsample.
  set (sample := map (fun i => nth i pixels []) indices) in *.
  assert (Hsize : len sample = Z.min (len pixels) 100000).
  { unfold sample, len. rewrite length_map. exact Hlen. }
  destruct (mapM_all_Return (inertia_of_fit sample) (range 1 (max_k + 1))) as [curve Hcurve].
  { intros k Hin. apply range_In in Hin.
    destruct (Hfit {| n_clusters := k; random_state := 42; n_init := 10 |} sample)
      as [_ Hok].
    destruct (Hok ltac:(cbn; lia)) as [m Hm].
    exists (inertia_ m). unfold inertia_of_fit. now rewrite Hm. }
  exists curve, g'. split; [rewrite calculate_wcss_run, Hdraw, Hsample; now rewrite Hcurve|].
  unfold len. rewrite (mapM_length _ _ _ Hcurve), range_length. lia.
Qed.

Lemma get_dominant_colors_enough `{PIL} `{Sklearn} (image : Image) (num_colors : Z) :
  convert_law -> predict_law -> fit_law -> wf_image image = true ->
  1 <= num_colors <= pixel_count image ->
  exists cols : list (list Z),
    get_dominant_colors image num_colors = Return cols
    /\ 1 <= len cols <= num_colors.
Proof.
  intros Hconv Hpred Hfitlaw Hwf Hk.
  destruct (pixel_matrix_rows image Hconv Hwf) as [Hrows Hlen].
  set (X := float32 (getdata (as_rgb image))) in *.
  set (km := {| n_clusters := num_colors; random_state := 42; n_init := 10 |}).
  destruct (Hfitlaw km X) as [_ Hok].
  destruct (Hok ltac:(cbn; lia)) as [m Hfit].
  destruct (Hpred _ _ _ Hfit) as [Hcenters Hp]. destruct (Hp X) as [Hplen Hrange].
  cbn in Hcenters.
  assert (Hrun : get_dominant_colors image num_colors
                 = Return (astype_int
                             (map (fun e : nat * Z => nth (fst e) (cluster_centers_ m) [])
                                (most_common (Counter (predict m X)))))).
  { unfold get_dominant_colors, cluster_pixels. rewrite Hrows.
    cbn [bind Monad_outcome ret]. fold km. rewrite Hfit.
    cbn [colors label_counts].
    erewrite (mapM_total _ (fun e : nat * Z => nth (fst e) (cluster_centers_ m) [])).
    - reflexivity.
    - rewrite Forall_forall. intros [i n] Hi. cbn [fst].
      apply getitem_in_range.
      apply (Permutation_in _ (most_common_perm _)) in Hi.
      rewrite Counter_spec in Hi. apply in_map_iff in Hi as (l & E & Hl).
      injection E as -> _. apply (proj1 (first_seen_In _ _)) in Hl.
      rewrite Forall_forall in Hrange. now apply Hrange. }
  eexists. split; [exact Hrun|].
  unfold len, astype_int. rewrite !length_map.
  rewrite (Permutation_length (most_common_perm _)), Counter_spec, length_map.
  assert (Hincl : incl (first_seen (predict m X)) (seq 0 (Z.to_nat num_colors))).
  { intros l Hl. apply (proj1 (first_seen_In _ _)) in Hl.
    rewrite Forall_forall in Hrange. specialize (Hrange l Hl).
    apply in_seq. unfold len in Hcenters. lia. }
  pose proof (NoDup_incl_length (first_seen_NoDup (predict m X)) Hincl) as Hle.
  rewrite length_seq in Hle.
  assert (Hne : first_seen (predict m X) <> []).
  { destruct (predict m X) as [|l ls] eqn:El.
    - unfold len in Hlen. cbn in Hplen. lia.
    - intros Hnil. assert (Hin : In l (first_seen (l :: ls)))
        by (apply first_seen_In; now left).
      rewrite Hnil in Hin. exact Hin. }
  destruct (first_seen (predict m X)); [congruence|]. cbn [List.length] in *. lia.
Qed.

Lemma pixels_for_processing_rows `{PIL} (image : Image) :
  convert_law -> wf_image image = true ->
  pixels_for_processing image = Return (float32 (getdata (convert image "RGB")))
  /\ len (float32 (getdata (convert image "RGB"))) = pixel_count image.
Proof.
  intros Hc Hwf. destruct (Hc image Hwf) as (Hm & Hw & Hn).
  unfold pixels_for_processing, np_array. rewrite reshape3_concat.
  - split; [reflexivity|]. unfold float32, len. rewrite length_map. exact Hn.
  - unfold wf_image in Hw. rewrite Hm in Hw. rewrite forallb_forall in Hw.
    rewrite Forall_forall. intros px Hpx. now apply Nat.eqb_eq, Hw.
Qed.

Lemma optimal_k_of_script `{Kneed} (curve : list Q) (shown : streamlit) :
  knee_law ->
  exists (k : Z) (added : list string),
    find_optimal_k_elbow curve (range 1 11) shown = (Return k, shown ++ added)
    /\ 2 <= k <= 10 /\ (List.length added <= 1)%nat.
Proof.
  intros Hknee. rewrite find_optimal_k_elbow_run.
  destruct (locate_knee curve (range 1 11)) as [kneedle|e] eqn:E.
  - destruct (elbow kneedle) as [k|] eqn:Ek.
    + pose proof (Hknee _ _ _ _ _ _ _ _ E Ek) as Hin. apply range_In in Hin.
      exists (Z.max 2 k), []. rewrite app_nil_r. split; [reflexivity|]. cbn. lia.
    + exists 5, []. rewrite app_nil_r. split; [reflexivity|]. cbn. lia.
  - exists 5, [elbow_warning e]. split; [reflexivity|]. cbn. lia.
Qed.

Section Script.
Context `{PIL} `{Numpy} `{Sklearn} `{Kneed}.
Variables (image : Image) (w : app_state generator).

(** The script, call after call. *)
Lemma process_image_run :
  process_image image w
  = match pixels_for_processing image with
    | Raise e => (Raise e, w)
    | Return pixels =>
        match calculate_wcss pixels 10 (np_random w) with
        | (Raise e, g') => (Raise e, {| np_random := g'; page := page w |})
        | (Return curve, g') =>
            match find_optimal_k_elbow curve (range 1 11) (page w) with
            | (Raise e, shown') => (Raise e, {| np_random := g'; page := shown' |})
            | (Return k, shown') =>
                (match get_dominant_colors image k with
                 | Raise e => Raise e
                 | Return cols =>
                     match mapM (fun color_rgb => rgb_to_hex (int_row color_rgb)) cols with
                     | Raise e => Raise e
                     | Return codes =>
                         Return {| optimal_k := k; wcss_values := curve; hex_codes := codes |}
                     end
                 end, {| np_random := g'; page := shown' |})
            end
        end
    end.
Proof.
  unfold process_image. cbn [bind Monad_io lift ret].
  destruct (pixels_for_processing image) as [pixels|e]; [|reflexivity].
  unfold on_generator at 1. cbn [np_random page].
  destruct (calculate_wcss pixels 10 (np_random w)) as [[curve|e] g']; [|reflexivity].
  unfold on_page at 1. cbn [np_random page]. change (10 + 1) with 11.
  destruct (find_optimal_k_elbow curve (range 1 11) (page w)) as [[k|e] shown'];
    [|reflexivity].
  destruct (get_dominant_colors image k) as [cols|e]; [|reflexivity].
  destruct (mapM _ cols) as [codes|e]; reflexivity.
Qed.

(** X10.  On an image of fewer than ten pixels the script fails: the cost
    curve is asked for ten values of k, the fit with more clusters than
    pixels raises [ValueError], and nothing catches it.  No number of
    clusters is chosen, no palette is computed and the page gets no
    warning. *)
Theorem process_image_too_small :
  choice_law -> fit_law -> convert_law -> wf_image image = true ->
  pixel_count image < 10 ->
  exists (e : exn) (w' : app_state generator),
    process_image image w = (Raise e, w')
    /\ exn_type e = "ValueError"%string
    /\ page w' = page w.
Proof.
  intros Hchoice Hfit Hconv Hwf Hsmall.
  destruct (pixels_for_processing_rows image Hconv Hwf) as [Hrows Hlen].
  rewrite process_image_run, Hrows.
  assert (Hfew : Z.min (len (float32 (getdata (convert image "RGB")))) 100000 < 10)
    by (rewrite Hlen; lia).
  destruct (calculate_wcss_too_few (float32 (getdata (convert image "RGB"))) 10
              (np_random w) Hchoice Hfit Hfew) as (e & g' & Hrun & He).
  rewrite Hrun. exists e. eexists. split; [reflexivity|]. split; [exact He | reflexivity].
Qed.

(** X11.  On an image of at least ten pixels with 8-bit channels, and with
    libraries that keep to the laws, the script completes: the curve has
    ten costs, the chosen number of clusters lies between 2 and 10, the
    palette has between one colour and that many, every code shown is a
    ['#'] followed by six hexadecimal digits, and the page gets at most one
    warning. *)
Theorem process_image_palette :
  choice_law -> fit_law -> predict_law -> convert_law -> knee_law -> centers_law ->
  wf_image image = true -> eight_bit (as_rgb image) = true ->
  10 <= pixel_count image ->
  exists (shown : shown_palette) (w' : app_state generator) (added : list string),
    process_image image w = (Return shown, w')
    /\ len (wcss_values shown) = 10
    /\ 2 <= optimal_k shown <= 10
    /\ 1 <= len (hex_codes shown) <= optimal_k shown
    /\ Forall (fun code => is_hex_color code = true) (hex_codes shown)
    /\ page w' = page w ++ added /\ (List.length added <= 1)%nat.
Proof.
  intros Hchoice Hfit Hpred Hconv Hknee Hcenters Hwf Hbytes Hbig.
  destruct (pixels_for_processing_rows image Hconv Hwf) as [Hrows Hlen].
  rewrite process_image_run, Hrows.
  assert (Henough : 0 <= 10 <= Z.min (len (float32 (getdata (convert image "RGB")))) 100000)
    by (rewrite Hlen; lia).
  destruct (calculate_wcss_enough (float32 (getdata (convert image "RGB"))) 10
              (np_random w) Hchoice Hfit Henough) as (curve & g' & Hrun & Hcurve).
  rewrite Hrun.
  destruct (optimal_k_of_script curve (page w) Hknee) as (k & added & Hk & Hkr & Hadded).
  rewrite Hk.
  assert (Hkn : 1 <= k <= pixel_count image) by lia.
  destruct (get_dominant_colors_enough image k Hconv Hpred Hfit Hwf Hkn)
    as (cols & Hcols & Hn).
  rewrite Hcols.
  destruct (pixel_matrix_rows image Hconv Hwf) as [Hmatrix _].
  destruct (as_rgb_wf image Hconv Hwf) as (_ & Hthree & _).
  pose proof (float32_color_rows _ Hthree Hbytes) as Hcolor.
  pose proof (get_dominant_colors_rows image k _ cols Hcenters Hmatrix Hcolor Hcols) as Hbyte.
  destruct (mapM_all_Return (fun color_rgb => rgb_to_hex (int_row color_rgb)) cols)
    as [codes Hcodes].
  { intros row Hrow. rewrite Forall_forall in Hbyte.
    destruct (Hbyte row Hrow) as (r & g & b & _ & _ & _ & _ & E). eauto. }
  rewrite Hcodes. eexists. eexists. exists added.
  split; [reflexivity|]. cbn [wcss_values optimal_k hex_codes page].
  split; [exact Hcurve|]. split; [exact Hkr|].
  split; [unfold len in *; rewrite (mapM_length _ _ _ Hcodes); exact Hn|].
  split; [|split; [reflexivity | exact Hadded]].
  pose proof (mapM_Return _ _ _ Hcodes) as Hall.
  rewrite Forall_forall in *. intros code Hcode.
  assert (Hsrc : exists row, In row cols /\ rgb_to_hex (int_row row) = Return code).
  { clear - Hall Hcode. induction Hall as [|row c cols codes Hrc _ IH].
    - destruct Hcode.
    - destruct Hcode as [<-|Hcode].
      + exists row. split; [now left | exact Hrc].
      + destruct (IH Hcode) as (row' & Hin & E). exists row'. split; [now right | exact E]. }
  destruct Hsrc as (row & Hrow & Erow).
  destruct (Hbyte row Hrow) as (r & g & b & _ & _ & _ & _ & E).
  rewrite E in Erow. injection Erow as <-. apply hex_code_well_formed.
Qed.

(** X12.  The script computes the cost curve on the same pixel matrix as
    [get_dominant_colors] clusters: converting an image that is in RGB
    already changes nothing, and an image in another mode is converted on
    both paths. *)
Theorem pixel_matrix_agrees :
  convert_law -> convert_rgb_law -> wf_image image = true ->
  exists X : list point,
    pixels_for_processing image = Return X
    /\ pixel_matrix image = Return X
    /\ len X = pixel_count image.
Proof.
  intros Hconv Hrgb Hwf.
  destruct (pixels_for_processing_rows image Hconv Hwf) as [Hrows Hlen].
  destruct (pixel_matrix_rows image Hconv Hwf) as [Hmatrix _].
  eexists. split; [exact Hrows|]. split; [|exact Hlen].
  rewrite Hmatrix. do 2 f_equal. unfold as_rgb.
  destruct (String.eqb (mode image) "RGB") eqn:E; cbn [negb]; [|reflexivity].
  apply String.eqb_eq in E. symmetry. now apply Hrgb.
Qed.
End Script.

Lemma ref_convert_rgb_law : convert_rgb_law (H := Ref.pil).
Proof.
  intros im Hmode Hwf. cbn. unfold Ref.convert. cbn.
  unfold wf_image in Hwf. rewrite Hmode in Hwf. rewrite forallb_forall in Hwf.
  rewrite <- (map_id (getdata im)) at 2. apply map_ext_in. intros px Hpx.
  specialize (Hwf px Hpx). apply Nat.eqb_eq in Hwf.
  destruct px as [|a [|b [|c [|d px]]]]; try discriminate. reflexivity.
Qed.

Lemma two_by_two_color_rows : Forall color_row (pixels two_by_two_locals).
Proof.
  change (pixels two_by_two_locals) with (float32 (getdata two_by_two)).
  apply float32_color_rows; [repeat constructor | reflexivity].
Qed.

(** The two colours of the 2x2 image. *)
Lemma get_dominant_colors_codes_witness :
  pixel_matrix (H := Ref.pil) two_by_two = Return (pixels two_by_two_locals)
  /\ get_dominant_colors (H := Ref.pil) (H0 := Ref.sklearn) two_by_two 2
     = Return [[255; 0; 0]; [0; 0; 255]]
  /\ Forall (fun row =>
               exists r g b : Z,
                 row = [r; g; b]
                 /\ 0 <= r <= 255 /\ 0 <= g <= 255 /\ 0 <= b <= 255
                 /\ rgb_to_hex (int_row row) = Return (hex_code r g b)
                 /\ is_hex_color (hex_code r g b) = true)
            [[255; 0; 0]; [0; 0; 255]].
Proof.
  assert (HX : pixel_matrix (H := Ref.pil) two_by_two = Return (pixels two_by_two_locals))
    by reflexivity.
  split; [exact HX|]. split; [exact (proj2 two_by_two_run)|].
  exact (get_dominant_colors_codes (H := Ref.pil) (H0 := Ref.sklearn) two_by_two 2
           (pixels two_by_two_locals) _ ref_centers_law HX two_by_two_color_rows
           (proj2 two_by_two_run)).
Defined.

(** The 2x2 image has four pixels. *)
Lemma process_image_too_small_witness :
  wf_image two_by_two = true
  /\ pixel_count two_by_two < 10
  /\ exists (e : exn) (w' : app_state Z),
      process_image (H := Ref.pil) (H0 := Ref.numpy) (H1 := Ref.sklearn) (H2 := Ref.kneed)
        two_by_two {| np_random := 0; page := [] |} = (Raise e, w')
      /\ exn_type e = "ValueError"%string
      /\ page w' = [].
Proof.
  assert (Hsmall : pixel_count two_by_two < 10) by reflexivity.
  split; [reflexivity|]. split; [exact Hsmall|].
  exact (process_image_too_small (H := Ref.pil) (H0 := Ref.numpy) (H1 := Ref.sklearn)
           (H2 := Ref.kneed) two_by_two {| np_random := 0; page := [] |}
           ref_choice_law ref_fit_law ref_convert_law eq_refl Hsmall).
Defined.

(** The grey image of twelve pixels. *)
Lemma process_image_palette_witness :
  wf_image grey_ramp = true
  /\ eight_bit (as_rgb (H := Ref.pil) grey_ramp) = true
  /\ 10 <= pixel_count grey_ramp
  /\ exists (shown : shown_palette) (w' : app_state Z) (added : list string),
      process_image (H := Ref.pil) (H0 := Ref.numpy) (H1 := Ref.sklearn) (H2 := Ref.kneed)
        grey_ramp {| np_random := 0; page := [] |} = (Return shown, w')
      /\ len (wcss_values shown) = 10
      /\ 2 <= optimal_k shown <= 10
      /\ 1 <= len (hex_codes shown) <= optimal_k shown
      /\ Forall (fun code => is_hex_color code = true) (hex_codes shown)
      /\ page w' = [] ++ added /\ (List.length added <= 1)%nat.
Proof.
  assert (Hbig : 10 <= pixel_count grey_ramp) by (vm_compute; discriminate).
  assert (Hbytes : eight_bit (as_rgb (H := Ref.pil) grey_ramp) = true)
    by (vm_compute; reflexivity).
  split; [reflexivity|]. split; [exact Hbytes|]. split; [exact Hbig|].
  exact (process_image_palette (H := Ref.pil) (H0 := Ref.numpy) (H1 := Ref.sklearn)
           (H2 := Ref.kneed) grey_ramp {| np_random := 0; page := [] |}
           ref_choice_law ref_fit_law ref_predict_law ref_convert_law ref_knee_law
           ref_centers_law eq_refl Hbytes Hbig).
Defined.

(** An image in RGB and an image in grey levels. *)
Lemma pixel_matrix_agrees_witness :
  wf_image two_by_two = true
  /\ (exists X : list point,
         pixels_for_processing (H := Ref.pil) two_by_two = Return X
         /\ pixel_matrix (H := Ref.pil) two_by_two = Return X
         /\ len X = pixel_count two_by_two)
  /\ wf_image grey_ramp = true
  /\ (exists X : list point,
         pixels_for_processing (H := Ref.pil) grey_ramp = Return X
         /\ pixel_matrix (H := Ref.pil) grey_ramp = Return X
         /\ len X = pixel_count grey_ramp).
Proof.
  split; [reflexivity|]. split.
  - exact (pixel_matrix_agrees (H := Ref.pil) two_by_two
             ref_convert_law ref_convert_rgb_law eq_refl).
  - split; [reflexivity|].
    exact (pixel_matrix_agrees (H := Ref.pil) grey_ramp
             ref_convert_law ref_convert_rgb_law eq_refl).
Defined.
